(** * Afroboost campaign services: WhatsApp (Twilio) and e-mail (EmailJS)

    A shallow embedding of [frontend/src/services/whatsappService.js] and of
    the e-mail service that follows it in the same source file, with the
    properties of the bulk dispatch engine, of the phone normaliser and of
    the message personalisation. *)

From Stdlib Require Import String Ascii DecimalString.
From Stdlib Require Import List NArith Bool Arith Lia.
Import ListNotations.

Set Implicit Arguments.

(** ** JavaScript strings

    A JavaScript string is a sequence of UTF-16 code units; [length],
    [startsWith], [substring], [split] and regular expressions without the
    [u] flag all work on code units. *)

Definition JsStr := list N.

(** An ASCII literal of the source. *)
Definition js (s : string) : JsStr := map N_of_ascii (list_ascii_of_string s).

(** U+00E9, the precomposed e-acute the source files use. *)
Definition eacute : N := 233%N.

Definition dollar : N := 36%N.
Definition ampersand : N := 38%N.
Definition apostrophe : N := 39%N.
Definition plus_sign : N := 43%N.
Definition backtick : N := 96%N.
Definition space : N := 32%N.

(** ToBoolean on a string: only the empty string is falsy. *)
Definition truthy (s : JsStr) : bool :=
  match s with [] => false | _ :: _ => true end.

(** ToBoolean on a property that may be [undefined]. *)
Definition truthy_opt (o : option JsStr) : bool :=
  match o with Some s => truthy s | None => false end.

(** [a || b] where [a] may be [undefined] and [b] is a string. *)
Definition or_else (a : option JsStr) (b : JsStr) : JsStr :=
  match a with
  | Some s => if truthy s then s else b
  | None => b
  end.

(** ToString inside a template literal. *)
Definition toString (o : option JsStr) : JsStr :=
  match o with Some s => s | None => js "undefined" end.

Fixpoint startsWith (s prefix : JsStr) : bool :=
  match prefix, s with
  | [], _ => true
  | p :: prefix', c :: s' => (c =? p)%N && startsWith s' prefix'
  | _ :: _, [] => false
  end.

(** The surrogate code units: leading D800-DBFF, trailing DC00-DFFF. *)
Definition is_lead_surrogate (c : N) : bool :=
  ((55296 <=? c) && (c <=? 56319))%N.

Definition is_trail_surrogate (c : N) : bool :=
  ((56320 <=? c) && (c <=? 57343))%N.

(** The conversion of a string to a USVString (Web IDL): a leading
    surrogate followed by a trailing one is kept with it as a pair, every
    other surrogate code unit becomes U+FFFD. *)
Fixpoint toUSVString (s : JsStr) : JsStr :=
  match s with
  | [] => []
  | c :: rest =>
      if is_lead_surrogate c then
        match rest with
        | [] => [65533%N]
        | d :: rest' =>
            if is_trail_surrogate d then c :: d :: toUSVString rest'
            else 65533%N :: toUSVString rest
        end
      else if is_trail_surrogate c then 65533%N :: toUSVString rest
      else c :: toUSVString rest
  end.

(** The pair that [formData.append(name, value)] adds to a
    [URLSearchParams]: both arguments are converted to USVStrings. *)
Definition form_entry (name value : JsStr) : JsStr * JsStr :=
  (toUSVString name, toUSVString value).

(** [s.substring(start)] for [0 <= start]. *)
Definition substring (s : JsStr) (start : nat) : JsStr := skipn start s.

(** [\d] without the [u] flag: the ten ASCII digits. *)
Definition is_digit (c : N) : bool := ((48 <=? c) && (c <=? 57))%N.

(** The class [[^\d+]] negated: the code units [replace] keeps. *)
Definition is_phone_char (c : N) : bool := is_digit c || (c =? plus_sign)%N.

(** [s.split(' ')[0]]: the code units before the first U+0020. *)
Fixpoint split_space_first (s : JsStr) : JsStr :=
  match s with
  | [] => []
  | c :: rest => if (c =? space)%N then [] else c :: split_space_first rest
  end.

(** *** The regular expression [/{pr\u00e9nom}/gi]

    Without the [u] flag the braces are literal characters and the [i] flag
    compares code units after Canonicalize (the single-unit upper case).
    [canonicalize] is that map on Basic Latin and Latin-1; above U+00FF it is
    the identity, which agrees with ECMAScript on every comparison against a
    character of this pattern (no code unit above U+00FF has an ASCII upper
    case under Canonicalize, and only U+00E9 upper-cases to U+00C9). *)

Definition canonicalize (c : N) : N :=
  if ((97 <=? c) && (c <=? 122))%N then (c - 32)%N
  else if ((224 <=? c) && (c <=? 254) && negb (c =? 247))%N then (c - 32)%N
  else c.

Definition PRENOM : JsStr := js "{pr" ++ [eacute] ++ js "nom}".

(** The pattern matches at the head of [s]. *)
Fixpoint match_at (pat s : JsStr) : bool :=
  match pat, s with
  | [], _ => true
  | p :: pat', c :: s' =>
      (canonicalize c =? canonicalize p)%N && match_at pat' s'
  | _ :: _, [] => false
  end.

(** GetSubstitution for a pattern without capture groups: [$$], [$&],
    [$`] and [$'] are expanded, every other [$] is literal. *)
Fixpoint getSubstitution (matched before after replacement : JsStr) : JsStr :=
  match replacement with
  | [] => []
  | c :: rest =>
      if (c =? dollar)%N then
        match rest with
        | [] => [dollar]
        | d :: rest' =>
            if (d =? dollar)%N then
              dollar :: getSubstitution matched before after rest'
            else if (d =? ampersand)%N then
              matched ++ getSubstitution matched before after rest'
            else if (d =? backtick)%N then
              before ++ getSubstitution matched before after rest'
            else if (d =? apostrophe)%N then
              after ++ getSubstitution matched before after rest'
            else dollar :: getSubstitution matched before after rest
        end
      else c :: getSubstitution matched before after rest
  end.

(** [s.replace(/pat/gi, replacement)] for a literal, non-empty pattern:
    leftmost matches, not overlapping.  [skip] counts the code units of the
    current match still to pass over; [before] is the part of the subject
    already passed. *)
Fixpoint replace_scan (pat replacement : JsStr) (skip : nat)
    (before s : JsStr) : JsStr :=
  match s with
  | [] => []
  | c :: rest =>
      match skip with
      | S k => replace_scan pat replacement k (before ++ [c]) rest
      | O =>
          if match_at pat s then
            getSubstitution (firstn (length pat) s) before
                            (skipn (length pat) s) replacement
            ++ replace_scan pat replacement (length pat - 1) (before ++ [c]) rest
          else c :: replace_scan pat replacement 0 (before ++ [c]) rest
      end
  end.

Definition replace_prenom (message firstName : JsStr) : JsStr :=
  replace_scan PRENOM firstName 0 [] message.

(** Lines 99-104 of [sendWhatsAppMessage] and 340-345 of [sendEmail]:
<<
  let personalizedMessage = params.message;
  if (params.contactName) {
    const firstName = params.contactName.split(' ')[0];
    personalizedMessage = params.message.replace(/{pr\u00e9nom}/gi, firstName);
  }
>> *)
Definition personalize (message : JsStr) (contactName : option JsStr) : JsStr :=
  match contactName with
  | Some n =>
      if truthy n then replace_prenom message (split_space_first n)
      else message
  | None => message
  end.

(** ** Phone numbers *)

(** [formatPhoneE164], lines 60-76. *)
Definition formatPhoneE164 (phone : JsStr) : JsStr :=
  if negb (truthy phone) then []
  else
    let cleaned := filter is_phone_char phone in
    if negb (startsWith cleaned (js "+")) then
      if startsWith cleaned (js "0") then js "+41" ++ substring cleaned 1
      else if 10 <? length cleaned then js "+" ++ cleaned
      else js "+41" ++ cleaned
    else cleaned.

(** ** Objects, errors and host responses

    Parsed JSON objects (the stored configuration, Twilio's response body,
    the EmailJS configuration served by the backend) are kept as their own
    properties with string values, which is what the admin form stores and
    what the services read.  A property that is missing reads as
    [undefined]; the first binding of a key is the property. *)

Definition JsObj := list (JsStr * JsStr).

Fixpoint str_eqb (a b : JsStr) : bool :=
  match a, b with
  | [], [] => true
  | x :: a', y :: b' => (x =? y)%N && str_eqb a' b'
  | _, _ => false
  end.

(** [o.key] *)
Fixpoint get (o : JsObj) (key : JsStr) : option JsStr :=
  match o with
  | [] => None
  | (k, v) :: o' => if str_eqb k key then Some v else get o' key
  end.

(** A thrown value: an [Error] (or an EmailJS status object), read through
    its [text] and [message] properties ([undefined] when missing). *)
Record JsError := { err_text : option JsStr; err_message : option JsStr }.

(** [new Error(msg)] *)
Definition Error (msg : JsStr) : JsError :=
  {| err_text := None; err_message := Some msg |}.

Inductive Outcome (A : Type) : Type :=
| Returned (a : A)
| Thrown (e : JsError).
Arguments Returned {A} a.
Arguments Thrown {A} e.

Record Request := {
  url : JsStr;
  method : JsStr;
  headers : list (JsStr * JsStr);
  body : list (JsStr * JsStr)
}.

(** What [fetch] resolves with; [json] is the outcome of [response.json()]. *)
Record Response := {
  ok : bool;
  status : nat;
  json : Outcome JsObj
}.

(** [`${n}`] for a non-negative integer. *)
Definition nat_toString (n : nat) : JsStr :=
  js (NilZero.string_of_uint (Nat.to_uint n)).

(** ** Effects

    Every interaction with the host is an event of the run's trace. *)

Inductive Event : Type :=
| EvGetItem (key : JsStr)
| EvConsoleError (label : JsStr)
| EvFetch (req : Request)
| EvProgress (current total : nat) (phase : JsStr) (name : option JsStr)
| EvSleep (ms : nat)
| EvEmailInit (publicKey : JsStr)
| EvEmailSend (serviceId templateId : JsStr) (templateParams : JsObj)
              (publicKey : JsStr).

(** The host.  Storage, network and the EmailJS SDK answer as a function of
    everything that happened before the call, so that they may answer
    differently at each call.  [JSON_parse] and [btoa] are the built-ins;
    [Thrown] is a [SyntaxError] of [JSON.parse] (or a text such as [null],
    on which the property read that follows throws in the same [try]
    block) and an [InvalidCharacterError] of [btoa]. *)
Record Env := {
  REACT_APP_TWILIO_ACCOUNT_SID : option JsStr;
  REACT_APP_TWILIO_AUTH_TOKEN : option JsStr;
  REACT_APP_TWILIO_WHATSAPP_FROM : option JsStr;
  REACT_APP_BACKEND_URL : option JsStr;
  localStorage_getItem : list Event -> JsStr -> Outcome (option JsStr);
  JSON_parse : JsStr -> Outcome JsObj;
  btoa : JsStr -> Outcome JsStr;
  fetch : list Event -> Request -> Outcome Response;
  emailjs_send : list Event -> JsStr -> JsStr -> JsObj -> JsStr -> Outcome JsObj
}.

(** The [onProgress] argument: a function that returns or throws. *)
Definition Callback :=
  list Event -> nat -> nat -> JsStr -> option JsStr -> Outcome unit.

(** The state a call runs in: the trace so far and the module variable
    [cachedConfig] of the e-mail service. *)
Record World := {
  trace : list Event;
  cachedConfig : option JsObj
}.

Definition M (A : Type) : Type := World -> Outcome A * World.

Definition ret {A} (a : A) : M A := fun w => (Returned a, w).

Definition bind {A B} (m : M A) (k : A -> M B) : M B :=
  fun w =>
    match m w with
    | (Returned a, w') => k a w'
    | (Thrown e, w') => (Thrown e, w')
    end.

Definition throw {A} (e : JsError) : M A := fun w => (Thrown e, w).

(** [try { m } catch (error) { handler error }] *)
Definition try_catch {A} (m : M A) (handler : JsError -> M A) : M A :=
  fun w =>
    match m w with
    | (Returned a, w') => (Returned a, w')
    | (Thrown e, w') => handler e w'
    end.

Declare Scope js_scope.
Delimit Scope js_scope with js.
Notation "x <- m ;; k" := (bind m (fun x => k))
  (at level 61, m at next level, right associativity) : js_scope.
Notation "m ;; k" := (bind m (fun _ => k))
  (at level 61, right associativity) : js_scope.
Local Open Scope js_scope.

(** A host call: the event is recorded, the answer depends on the trace
    before it. *)
Definition perform {A} (ev : Event) (answer : list Event -> Outcome A) : M A :=
  fun w =>
    (answer (trace w),
     {| trace := trace w ++ [ev]; cachedConfig := cachedConfig w |}).

Definition emit (ev : Event) : M unit := perform ev (fun _ => Returned tt).

Definition console_error (label : JsStr) : M unit := emit (EvConsoleError label).

(** [await new Promise(resolve => setTimeout(resolve, ms))] *)
Definition sleep (ms : nat) : M unit := emit (EvSleep ms).

Definition read_cachedConfig : M (option JsObj) :=
  fun w => (Returned (cachedConfig w), w).

Definition write_cachedConfig (c : JsObj) : M unit :=
  fun w => (Returned tt, {| trace := trace w; cachedConfig := Some c |}).

(** [await m] on a promise already settled with [o]. *)
Definition settle {A} (o : Outcome A) : M A := fun w => (o, w).

(** [if (onProgress) { onProgress(current, total, phase, name); }] *)
Definition report (onProgress : option Callback) (current total : nat)
    (phase : JsStr) (name : option JsStr) : M unit :=
  match onProgress with
  | None => ret tt
  | Some cb =>
      perform (EvProgress current total phase name)
              (fun h => cb h current total phase name)
  end.

(** ** The bulk dispatch loop

    [sendBulkWhatsApp] (lines 178-226) and [sendBulkEmails] (lines 403-451)
    run the same loop over their recipients; they differ in the address
    property of a recipient ([phone] or [email]), in the single send they
    call, in the detail records they push and in the delay. *)

(** What a single send resolves with. *)
Record SendResult := {
  success : bool;
  sid : option JsStr;
  delivery_status : option JsStr;
  error : option JsStr;
  code : option JsStr;
  response : option JsObj
}.

(** The [results] object of a bulk send. *)
Record Results (D : Type) := {
  sent : nat;
  failed : nat;
  errors : list JsStr;
  details : list D
}.
Arguments sent {D} r.
Arguments failed {D} r.
Arguments errors {D} r.
Arguments details {D} r.

(** The campaign object: [{name, message, mediaUrl}]. *)
Record Campaign := {
  campaign_name : option JsStr;
  campaign_message : JsStr;
  campaign_mediaUrl : option JsStr
}.

Section BulkLoop.

Variables R D : Type.
(** [recipient.phone] or [recipient.email] *)
Variable address : R -> JsStr.
(** [recipient.name] *)
Variable name_of : R -> option JsStr.
(** the awaited single send *)
Variable send : R -> M SendResult.
(** the detail pushed after a success, after a failure *)
Variable sentDetail : R -> SendResult -> D.
Variable failedDetail : R -> option JsStr -> D.
Variable delay : nat.
Variable onProgress : option Callback.
(** [const total = recipients.length] *)
Variable total : nat.

(** The [try { ... } catch (error) { ... }] of one iteration. *)
Definition attempt (recipient : R) (results : Results D) : M (Results D) :=
  try_catch
    (result <- send recipient ;;
     if success result then
       ret {| sent := sent results + 1;
              failed := failed results;
              errors := errors results;
              details := details results ++ [sentDetail recipient result] |}
     else
       ret {| sent := sent results;
              failed := failed results + 1;
              errors := errors results
                ++ [address recipient ++ js ": " ++ toString (error result)];
              details := details results
                ++ [failedDetail recipient (error result)] |})
    (fun error =>
       ret {| sent := sent results;
              failed := failed results + 1;
              errors := errors results
                ++ [address recipient ++ js ": " ++ toString (err_message error)];
              details := details results
                ++ [failedDetail recipient (err_message error)] |}).

(** The body of [for (let i = 0; i < recipients.length; i++)]. *)
Definition iteration (i : nat) (recipient : R) (results : Results D)
  : M (Results D) :=
  report onProgress (i + 1) total (js "sending")
         (Some (or_else (name_of recipient) (address recipient))) ;;
  results' <- attempt recipient results ;;
  (if i <? total - 1 then sleep delay else ret tt) ;;
  ret results'.

(** The loop from index [i] on; [rest] is [recipients.slice(i)]. *)
Fixpoint loop (i : nat) (rest : list R) (results : Results D)
  : M (Results D) :=
  match rest with
  | [] => ret results
  | recipient :: rest' =>
      results' <- iteration i recipient results ;;
      loop (i + 1) rest' results'
  end.

(** What one recipient leaves in [results.details]: one of the two detail
    records of that recipient. *)
Definition recorded (recipient : R) (d : D) : Prop :=
  (exists result, d = sentDetail recipient result)
  \/ (exists reason, d = failedDetail recipient reason).

(** The result of an iteration whose send failed with [reason], whether the
    failure was returned or thrown. *)
Definition failure_recorded (recipient : R) (reason : option JsStr)
    (results : Results D) : Results D :=
  {| sent := sent results;
     failed := failed results + 1;
     errors := errors results
       ++ [address recipient ++ js ": " ++ toString reason];
     details := details results ++ [failedDetail recipient reason] |}.

(** The result of an iteration whose send succeeded with [result]. *)
Definition success_recorded (recipient : R) (result : SendResult)
    (results : Results D) : Results D :=
  {| sent := sent results + 1;
     failed := failed results;
     errors := errors results;
     details := details results ++ [sentDetail recipient result] |}.

(** What the [try]/[catch] of an iteration makes of the outcome of its
    send. *)
Definition outcome_recorded (recipient : R) (o : Outcome SendResult)
    (results : Results D) : Results D :=
  match o with
  | Returned result =>
      if success result then success_recorded recipient result results
      else failure_recorded recipient (error result) results
  | Thrown e => failure_recorded recipient (err_message e) results
  end.

(** The loop and what follows it (lines 178-232, 403-457). *)
Definition dispatch (recipients : list R) (results : Results D)
  : M (Results D) :=
  results' <- loop 0 recipients results ;;
  report onProgress total total (js "completed") None ;;
  ret results'.

End BulkLoop.

(** ** whatsappService.js *)

Module WhatsApp.

Record Params := {
  to : JsStr;
  message : JsStr;
  mediaUrl : option JsStr;
  contactName : option JsStr
}.

Record Recipient := { phone : JsStr; name : option JsStr }.

(** The entries of [results.details]. *)
Record Detail := {
  d_phone : JsStr;
  d_name : option JsStr;
  d_status : JsStr;
  d_sid : option JsStr;
  d_error : option JsStr
}.

Definition WHATSAPP_CONFIG_KEY : JsStr := js "afroboost_whatsapp_config".

Definition INVALID_PHONE : JsStr :=
  js "Num" ++ [eacute] ++ js "ro de t" ++ [eacute] ++ js "l" ++ [eacute]
  ++ js "phone invalide".

Definition NOT_CONFIGURED : JsStr := js "WhatsApp API non configur" ++ [eacute].

Definition NOT_CONFIGURED_LONG : JsStr :=
  NOT_CONFIGURED ++ js ". Veuillez configurer les cl" ++ [eacute]
  ++ js "s dans l'onglet Campagnes.".

(** A detail with [status: 'failed']. *)
Definition is_failed (d : Detail) : bool := str_eqb (d_status d) (js "failed").

(** The entry of [results.errors] that goes with a failed detail:
    [`${phone}: ${error}`]. *)
Definition error_line (d : Detail) : JsStr :=
  d_phone d ++ js ": " ++ toString (d_error d).

Section Service.

Variable env : Env.

Definition DEFAULT_CONFIG : JsObj :=
  [ (js "accountSid", or_else (REACT_APP_TWILIO_ACCOUNT_SID env) []);
    (js "authToken", or_else (REACT_APP_TWILIO_AUTH_TOKEN env) []);
    (js "fromNumber", or_else (REACT_APP_TWILIO_WHATSAPP_FROM env) []);
    (js "apiMode", js "twilio") ].

(** [config.accountSid && config.authToken && config.fromNumber] as a
    condition. *)
Definition complete (config : JsObj) : bool :=
  truthy_opt (get config (js "accountSid"))
  && truthy_opt (get config (js "authToken"))
  && truthy_opt (get config (js "fromNumber")).

(** Lines 19-32.  The [try] block yields [Some config] when it returns
    from the function and [None] when control falls out of it. *)
Definition getWhatsAppConfig : M JsObj :=
  returned <-
    try_catch
      (stored <- perform (EvGetItem WHATSAPP_CONFIG_KEY)
                   (fun h => localStorage_getItem env h WHATSAPP_CONFIG_KEY) ;;
       match stored with
       | Some text =>
           if truthy text then
             config <- settle (JSON_parse env text) ;;
             if complete config then ret (Some config) else ret None
           else ret None
       | None => ret None
       end)
      (fun e =>
         console_error (js "Error reading WhatsApp config:") ;; ret None) ;;
  match returned with
  | Some config => ret config
  | None => ret DEFAULT_CONFIG
  end.

(** Lines 50-53. *)
Definition isWhatsAppConfigured : M bool :=
  config <- getWhatsAppConfig ;;
  ret (complete config).

Definition twilio_request (config : JsObj) (authorization : JsStr)
    (formData : list (JsStr * JsStr)) : Request :=
  {| url := js "https://api.twilio.com/2010-04-01/Accounts/"
            ++ toString (get config (js "accountSid"))
            ++ js "/Messages.json";
     method := js "POST";
     headers := [ (js "Authorization", authorization);
                  (js "Content-Type", js "application/x-www-form-urlencoded") ];
     body := formData |}.

(** Lines 87-150. *)
Definition sendWhatsAppMessage (params : Params) : M SendResult :=
  config <- getWhatsAppConfig ;;
  if negb (truthy_opt (get config (js "accountSid")))
     || negb (truthy_opt (get config (js "authToken")))
     || negb (truthy_opt (get config (js "fromNumber")))
  then throw (Error NOT_CONFIGURED_LONG)
  else
    let toNumber := formatPhoneE164 (to params) in
    if negb (truthy toNumber) || (length toNumber <? 10) then
      ret {| success := false; sid := None; delivery_status := None;
             error := Some INVALID_PHONE; code := None; response := None |}
    else
      let personalizedMessage :=
        personalize (message params) (contactName params) in
      let formData :=
        [ form_entry (js "From")
            (js "whatsapp:"
             ++ formatPhoneE164 (or_else (get config (js "fromNumber")) []));
          form_entry (js "To") (js "whatsapp:" ++ toNumber);
          form_entry (js "Body") personalizedMessage ]
        ++ (if truthy_opt (mediaUrl params)
            then [ form_entry (js "MediaUrl") (toString (mediaUrl params)) ]
            else []) in
      try_catch
        (credentials <-
           settle (btoa env (toString (get config (js "accountSid"))
                             ++ js ":"
                             ++ toString (get config (js "authToken")))) ;;
         let request :=
           twilio_request config (js "Basic " ++ credentials) formData in
         response <- perform (EvFetch request) (fun h => fetch env h request) ;;
         data <- settle (json response) ;;
         if negb (ok response) then
           console_error (js "Twilio API error:") ;;
           ret {| success := false; sid := None; delivery_status := None;
                  error := Some (or_else (get data (js "message"))
                                   (js "HTTP " ++ nat_toString (status response)));
                  code := get data (js "code"); response := None |}
         else
           ret {| success := true; sid := get data (js "sid");
                  delivery_status := get data (js "status");
                  error := None; code := None; response := None |})
        (fun error =>
           console_error (js "WhatsApp send error:") ;;
           ret {| success := false; sid := None; delivery_status := None;
                  error := err_message error; code := None;
                  response := None |}).

Definition sentDetail (recipient : Recipient) (result : SendResult) : Detail :=
  {| d_phone := phone recipient; d_name := name recipient;
     d_status := js "sent"; d_sid := sid result; d_error := None |}.

Definition failedDetail (recipient : Recipient) (reason : option JsStr)
  : Detail :=
  {| d_phone := phone recipient; d_name := name recipient;
     d_status := js "failed"; d_sid := None; d_error := reason |}.

(** The argument of the single send for one recipient (lines 186-191). *)
Definition message_for (campaign : Campaign) (recipient : Recipient) : Params :=
  {| to := phone recipient;
     message := campaign_message campaign;
     mediaUrl := campaign_mediaUrl campaign;
     contactName := name recipient |}.

(** Lines 159-233, with the single send it awaits as a parameter. *)
Definition sendBulkWhatsAppWith (send : Params -> M SendResult)
    (recipients : list Recipient) (campaign : Campaign)
    (onProgress : option Callback) : M (Results Detail) :=
  let results := {| sent := 0; failed := 0; errors := []; details := [] |} in
  let total := length recipients in
  configured <- isWhatsAppConfigured ;;
  if negb configured then
    ret {| sent := sent results;
           failed := total;
           errors := [NOT_CONFIGURED];
           details := details results |}
  else
    dispatch phone name
      (fun recipient => send (message_for campaign recipient))
      sentDetail failedDetail 500 onProgress total recipients results.

Definition sendBulkWhatsApp :=
  sendBulkWhatsAppWith sendWhatsAppMessage.

(** The form data of lines 107-115 and the request of lines 118-128, as
    [sendWhatsAppMessage] builds them from the configuration, its argument
    and the encoded credentials. *)
Definition form_data (config : JsObj) (params : Params)
  : list (JsStr * JsStr) :=
  [ form_entry (js "From")
      (js "whatsapp:"
       ++ formatPhoneE164 (or_else (get config (js "fromNumber")) []));
    form_entry (js "To") (js "whatsapp:" ++ formatPhoneE164 (to params));
    form_entry (js "Body") (personalize (message params) (contactName params)) ]
  ++ (if truthy_opt (mediaUrl params)
      then [ form_entry (js "MediaUrl") (toString (mediaUrl params)) ]
      else []).

Definition request_for (config : JsObj) (params : Params)
    (credentials : JsStr) : Request :=
  twilio_request config (js "Basic " ++ credentials) (form_data config params).

(** The argument of [btoa]: [`${config.accountSid}:${config.authToken}`]. *)
Definition credentials_text (config : JsObj) : JsStr :=
  toString (get config (js "accountSid")) ++ js ":"
  ++ toString (get config (js "authToken")).

(** The text of the test message: U+1F389 as its surrogate pair, then the
    two sentences separated by two line feeds. *)
Definition TEST_MESSAGE : JsStr :=
  [55356; 57225]%N ++ js " Test Afroboost WhatsApp API!" ++ [10; 10]%N
  ++ js "Votre configuration Twilio fonctionne correctement.".

(** Lines 240-246. *)
Definition testWhatsAppConfig (testPhone : JsStr) : M SendResult :=
  sendWhatsAppMessage
    {| to := testPhone;
       message := TEST_MESSAGE;
       mediaUrl := None;
       contactName := Some (js "Test") |}.

End Service.

End WhatsApp.

(** ** emailService.js *)

Module Email.

Record Params := {
  to_email : JsStr;
  to_name : option JsStr;
  subject : option JsStr;
  message : JsStr;
  media_url : option JsStr
}.

Record Recipient := { email : JsStr; name : option JsStr }.

(** The entries of [results.details]. *)
Record Detail := {
  d_email : JsStr;
  d_name : option JsStr;
  d_status : JsStr;
  d_error : option JsStr
}.

Definition NOT_CONFIGURED : JsStr := js "EmailJS non configur" ++ [eacute].

Definition NOT_CONFIGURED_LONG : JsStr :=
  NOT_CONFIGURED ++ js ". Veuillez configurer les cl" ++ [eacute]
  ++ js "s dans l'onglet Campagnes.".

(** The separator before the media link: two line feeds and U+1F517 as
    its surrogate pair. *)
Definition MEDIA_PREFIX : JsStr :=
  [10; 10; 55357; 56599]%N ++ js " Voir le visuel: ".

(** A detail with [status: 'failed']. *)
Definition is_failed (d : Detail) : bool := str_eqb (d_status d) (js "failed").

(** The entry of [results.errors] that goes with a failed detail:
    [`${email}: ${error}`]. *)
Definition error_line (d : Detail) : JsStr :=
  d_email d ++ js ": " ++ toString (d_error d).

Section Service.

Variable env : Env.

Definition API : JsStr := or_else (REACT_APP_BACKEND_URL env) [].

Definition EMPTY_CONFIG : JsObj :=
  [ (js "serviceId", []); (js "templateId", []); (js "publicKey", []) ].

Definition config_request : Request :=
  {| url := API ++ js "/api/emailjs-config"; method := js "GET";
     headers := []; body := [] |}.

(** Lines 270-281. *)
Definition getEmailJSConfig : M JsObj :=
  returned <-
    try_catch
      (response <- perform (EvFetch config_request)
                     (fun h => fetch env h config_request) ;;
       if ok response then
         config <- settle (json response) ;;
         write_cachedConfig config ;;
         ret (Some config)
       else ret None)
      (fun e =>
         console_error (js "Error fetching EmailJS config:") ;; ret None) ;;
  match returned with
  | Some config => ret config
  | None => ret EMPTY_CONFIG
  end.

(** Lines 313-316. *)
Definition isEmailJSConfigured : M bool :=
  cached <- read_cachedConfig ;;
  let config := match cached with Some c => c | None => EMPTY_CONFIG end in
  ret (truthy_opt (get config (js "serviceId"))
       && truthy_opt (get config (js "templateId"))
       && truthy_opt (get config (js "publicKey"))).

(** Lines 321-328. *)
Definition initEmailJS : M bool :=
  cached <- read_cachedConfig ;;
  let config :=
    match cached with Some c => c | None => [ (js "publicKey", []) ] end in
  if truthy_opt (get config (js "publicKey")) then
    emit (EvEmailInit (toString (get config (js "publicKey")))) ;;
    ret true
  else ret false.

(** Lines 333-373. *)
Definition sendEmail (params : Params) : M SendResult :=
  cached <- read_cachedConfig ;;
  config <- match cached with
            | Some c => ret c
            | None => getEmailJSConfig
            end ;;
  if negb (truthy_opt (get config (js "serviceId")))
     || negb (truthy_opt (get config (js "templateId")))
     || negb (truthy_opt (get config (js "publicKey")))
  then throw (Error NOT_CONFIGURED_LONG)
  else
    let personalizedMessage :=
      personalize (message params) (to_name params) in
    let fullMessage :=
      if truthy_opt (media_url params)
      then personalizedMessage ++ MEDIA_PREFIX ++ toString (media_url params)
      else personalizedMessage in
    let templateParams :=
      [ (js "to_email", to_email params);
        (js "to_name", or_else (to_name params) (js "Client"));
        (js "subject", or_else (subject params) (js "Afroboost - Message"));
        (js "message", fullMessage);
        (js "from_name", js "Afroboost");
        (js "reply_to", js "contact.artboost@gmail.com") ] in
    let serviceId := toString (get config (js "serviceId")) in
    let templateId := toString (get config (js "templateId")) in
    let publicKey := toString (get config (js "publicKey")) in
    try_catch
      (response <-
         perform (EvEmailSend serviceId templateId templateParams publicKey)
           (fun h => emailjs_send env h serviceId templateId templateParams
                       publicKey) ;;
       ret {| success := true; sid := None; delivery_status := None;
              error := None; code := None; response := Some response |})
      (fun error =>
         console_error (js "EmailJS send error:") ;;
         ret {| success := false; sid := None; delivery_status := None;
                error := if truthy_opt (err_text error)
                         then err_text error else err_message error;
                code := None; response := None |}).

Definition sentDetail (recipient : Recipient) (result : SendResult) : Detail :=
  {| d_email := email recipient; d_name := name recipient;
     d_status := js "sent"; d_error := None |}.

Definition failedDetail (recipient : Recipient) (reason : option JsStr)
  : Detail :=
  {| d_email := email recipient; d_name := name recipient;
     d_status := js "failed"; d_error := reason |}.

(** Lines 389-394: load the configuration when the cache is empty, then
    initialise the SDK. *)
Definition prepare : M bool :=
  cached <- read_cachedConfig ;;
  match cached with
  | Some _ => ret tt
  | None => getEmailJSConfig ;; ret tt
  end ;;
  initEmailJS.

(** The argument of the single send for one recipient (lines 411-417). *)
Definition message_for (campaign : Campaign) (recipient : Recipient) : Params :=
  {| to_email := email recipient;
     to_name := name recipient;
     subject := campaign_name campaign;
     message := campaign_message campaign;
     media_url := campaign_mediaUrl campaign |}.

(** Lines 378-458, with the single send it awaits as a parameter. *)
Definition sendBulkEmailsWith (send : Params -> M SendResult)
    (recipients : list Recipient) (campaign : Campaign)
    (onProgress : option Callback) : M (Results Detail) :=
  let results := {| sent := 0; failed := 0; errors := []; details := [] |} in
  let total := length recipients in
  initialised <- prepare ;;
  if negb initialised then
    ret {| sent := sent results;
           failed := total;
           errors := [NOT_CONFIGURED];
           details := details results |}
  else
    dispatch email name
      (fun recipient => send (message_for campaign recipient))
      sentDetail failedDetail 200 onProgress total recipients results.

Definition sendBulkEmails := sendBulkEmailsWith sendEmail.

(** Lines 286-288. *)
Definition getEmailJSConfigSync : M JsObj :=
  cached <- read_cachedConfig ;;
  ret (match cached with Some c => c | None => EMPTY_CONFIG end).

(** The request of lines 295-299; the body is kept as the object that
    [JSON.stringify] serialises. *)
Definition save_request (config : JsObj) : Request :=
  {| url := API ++ js "/api/emailjs-config"; method := js "PUT";
     headers := [ (js "Content-Type", js "application/json") ];
     body := config |}.

(** Lines 293-308. *)
Definition saveEmailJSConfig (config : JsObj) : M bool :=
  returned <-
    try_catch
      (response <- perform (EvFetch (save_request config))
                     (fun h => fetch env h (save_request config)) ;;
       if ok response then
         saved <- settle (json response) ;;
         write_cachedConfig saved ;;
         ret (Some true)
       else ret None)
      (fun e =>
         console_error (js "Error saving EmailJS config:") ;; ret None) ;;
  match returned with
  | Some b => ret b
  | None => ret false
  end.

(** The [templateParams] of lines 352-359. *)
Definition template_params (params : Params) : JsObj :=
  [ (js "to_email", to_email params);
    (js "to_name", or_else (to_name params) (js "Client"));
    (js "subject", or_else (subject params) (js "Afroboost - Message"));
    (js "message",
     if truthy_opt (media_url params)
     then personalize (message params) (to_name params)
          ++ MEDIA_PREFIX ++ toString (media_url params)
     else personalize (message params) (to_name params));
    (js "from_name", js "Afroboost");
    (js "reply_to", js "contact.artboost@gmail.com") ].

(** The text of the test e-mail: U+1F389 as its surrogate pair, then the
    sentence. *)
Definition TEST_MESSAGE : JsStr :=
  [55356; 57225]%N ++ js " F" ++ [eacute]
  ++ js "licitations ! Votre configuration EmailJS fonctionne correctement.".

(** Lines 463-470. *)
Definition testEmailJSConfig (testEmail : JsStr) : M SendResult :=
  sendEmail
    {| to_email := testEmail;
       to_name := Some (js "Test");
       subject := Some (js "Test EmailJS - Afroboost");
       message := TEST_MESSAGE;
       media_url := None |}.

End Service.

End Email.

(** ** The shape of a run *)

Definition is_sleep (ev : Event) : bool :=
  match ev with EvSleep _ => true | _ => false end.

Definition is_progress (ev : Event) : bool :=
  match ev with EvProgress _ _ _ _ => true | _ => false end.

Definition is_fetch (ev : Event) : bool :=
  match ev with EvFetch _ => true | _ => false end.

Definition is_email_send (ev : Event) : bool :=
  match ev with EvEmailSend _ _ _ _ => true | _ => false end.

(** Events of the storage read: [localStorage.getItem] and [console.error]. *)
Definition is_storage (ev : Event) : bool :=
  match ev with EvGetItem _ | EvConsoleError _ => true | _ => false end.

(** Events a single send or the configuration check may cause: anything
    but a delay or a progress report. *)
Definition is_host (ev : Event) : bool :=
  negb (is_sleep ev) && negb (is_progress ev).

(** Events of the loop itself: a delay or a progress report. *)
Definition is_pause (ev : Event) : bool := is_sleep ev || is_progress ev.

(** A ledger is consistent when its error list is its failed details,
    rendered, and its counters are the numbers of details of each status. *)
Definition consistent (D : Type) (is_failed : D -> bool)
    (error_line : D -> JsStr) (results : Results D) : Prop :=
  errors results = map error_line (filter is_failed (details results))
  /\ failed results = length (filter is_failed (details results))
  /\ sent results
     = length (filter (fun d => negb (is_failed d)) (details results)).

(** The callback, when one is supplied, returns normally whenever it is
    called. *)
Definition callback_returns (onProgress : option Callback) : Prop :=
  forall cb, onProgress = Some cb ->
    forall h current total phase name,
      cb h current total phase name = Returned tt.

(** The computation [m], wherever it is run, only adds to the trace, and
    only events that satisfy [P]. *)
Definition only (A : Type) (P : Event -> bool) (m : M A) : Prop :=
  forall w, exists evs,
    trace (snd (m w)) = trace w ++ evs /\ forallb P evs = true.

(** The progress event of one [report]. *)
Definition reported (onProgress : option Callback) (current total : nat)
    (phase : JsStr) (name : option JsStr) : list Event :=
  match onProgress with
  | Some _ => [EvProgress current total phase name]
  | None => []
  end.

Section RunShape.

Variable R : Type.
Variable address : R -> JsStr.
Variable name_of : R -> option JsStr.
Variable delay : nat.
Variable onProgress : option Callback.
Variable total : nat.

(** The trace of the iterations from index [i] on, given the events
    [segs] of their single sends: each iteration is its progress report,
    its send and, unless it is the last, one delay. *)
Fixpoint iterations (i : nat) (rest : list R) (segs : list (list Event))
  : list Event :=
  match rest, segs with
  | recipient :: rest', seg :: segs' =>
      reported onProgress (i + 1) total (js "sending")
               (Some (or_else (name_of recipient) (address recipient)))
      ++ seg
      ++ (if i <? total - 1 then [EvSleep delay] else [])
      ++ iterations (i + 1) rest' segs'
  | _, _ => []
  end.

(** The [sending] reports from index [i] on. *)
Fixpoint sending_reports (i : nat) (rest : list R) : list Event :=
  match rest with
  | [] => []
  | recipient :: rest' =>
      EvProgress (i + 1) total (js "sending")
                 (Some (or_else (name_of recipient) (address recipient)))
      :: sending_reports (i + 1) rest'
  end.

(** The events of a whole run: those of the configuration check, the
    iterations and the [completed] report. *)
Definition run_events (recipients : list R) (prelude : list Event)
    (segs : list (list Event)) : list Event :=
  prelude
  ++ iterations 0 recipients segs
  ++ reported onProgress total total (js "completed") None.

End RunShape.

(** ** The renderer as the specification words it

    Section 4.2 of the specification describes the renderer as replacing
    every occurrence of the placeholder, matched case-insensitively, by the
    first whitespace-delimited token of the recipient name.  The definitions
    below follow those words, to be compared with [personalize]. *)

(** White space: the controls from tabulation to carriage return, the
    space and the no-break space. *)
Definition is_whitespace (c : N) : bool :=
  ((9 <=? c) && (c <=? 13) || (c =? 32) || (c =? 160))%N.

Fixpoint first_whitespace_token (s : JsStr) : JsStr :=
  match s with
  | [] => []
  | c :: rest => if is_whitespace c then [] else c :: first_whitespace_token rest
  end.

(** Every leftmost occurrence of [pat], compared case-insensitively, becomes
    [replacement] as it stands. *)
Fixpoint literal_replace_all (pat replacement : JsStr) (skip : nat) (s : JsStr)
  : JsStr :=
  match s with
  | [] => []
  | c :: rest =>
      match skip with
      | S k => literal_replace_all pat replacement k rest
      | O =>
          if match_at pat s then
            replacement ++ literal_replace_all pat replacement (length pat - 1) rest
          else c :: literal_replace_all pat replacement 0 rest
      end
  end.

Definition spec_render (template : JsStr) (recipientName : option JsStr) : JsStr :=
  match recipientName with
  | Some n =>
      if truthy n
      then literal_replace_all PRENOM (first_whitespace_token n) 0 template
      else template
  | None => template
  end.

(** ** Sample hosts and inputs *)

Module Sample.

Definition stored_config : JsObj :=
  [ (js "accountSid", js "AC0123"); (js "authToken", js "secret");
    (js "fromNumber", js "+14155238886") ].

Definition email_config : JsObj :=
  [ (js "serviceId", js "service_1"); (js "templateId", js "template_1");
    (js "publicKey", js "pk_1") ].

Definition accepted : Response :=
  {| ok := true; status := 201;
     json := Returned [ (js "sid", js "SM1"); (js "status", js "queued") ] |}.

(** A browser whose storage holds a complete configuration and whose
    network accepts every message. *)
Definition configured : Env :=
  {| REACT_APP_TWILIO_ACCOUNT_SID := None;
     REACT_APP_TWILIO_AUTH_TOKEN := None;
     REACT_APP_TWILIO_WHATSAPP_FROM := None;
     REACT_APP_BACKEND_URL := None;
     localStorage_getItem := fun _ _ => Returned (Some (js "{...}"));
     JSON_parse := fun _ => Returned stored_config;
     btoa := fun s => Returned s;
     fetch := fun _ _ => Returned accepted;
     emailjs_send := fun _ _ _ _ _ => Returned [ (js "text", js "OK") ] |}.

(** A browser with nothing stored, no environment variable and no
    network. *)
Definition unconfigured : Env :=
  {| REACT_APP_TWILIO_ACCOUNT_SID := None;
     REACT_APP_TWILIO_AUTH_TOKEN := None;
     REACT_APP_TWILIO_WHATSAPP_FROM := None;
     REACT_APP_BACKEND_URL := None;
     localStorage_getItem := fun _ _ => Returned None;
     JSON_parse := fun _ => Thrown (Error (js "Unexpected token"));
     btoa := fun s => Returned s;
     fetch := fun _ _ => Thrown (Error (js "Failed to fetch"));
     emailjs_send := fun _ _ _ _ _ => Thrown (Error (js "Failed to fetch")) |}.

Definition rejected : Response :=
  {| ok := false; status := 400;
     json := Returned [ (js "message", js "Invalid 'To' number");
                        (js "code", js "21211") ] |}.

(** As [configured], but Twilio rejects the second request. *)
Definition flaky : Env :=
  {| REACT_APP_TWILIO_ACCOUNT_SID := None;
     REACT_APP_TWILIO_AUTH_TOKEN := None;
     REACT_APP_TWILIO_WHATSAPP_FROM := None;
     REACT_APP_BACKEND_URL := None;
     localStorage_getItem := fun _ _ => Returned (Some (js "{...}"));
     JSON_parse := fun _ => Returned stored_config;
     btoa := fun s => Returned s;
     fetch := fun h _ =>
       if length (filter is_fetch h) =? 1 then Returned rejected
       else Returned accepted;
     emailjs_send := fun _ _ _ _ _ => Returned [ (js "text", js "OK") ] |}.

(** As [configured], but [btoa] rejects the credentials. *)
Definition strict_btoa : Env :=
  {| REACT_APP_TWILIO_ACCOUNT_SID := None;
     REACT_APP_TWILIO_AUTH_TOKEN := None;
     REACT_APP_TWILIO_WHATSAPP_FROM := None;
     REACT_APP_BACKEND_URL := None;
     localStorage_getItem := fun _ _ => Returned (Some (js "{...}"));
     JSON_parse := fun _ => Returned stored_config;
     btoa := fun _ => Thrown (Error (js "Invalid character"));
     fetch := fun _ _ => Returned accepted;
     emailjs_send := fun _ _ _ _ _ => Returned [ (js "text", js "OK") ] |}.

(** A build with the three Twilio variables set and an empty storage. *)
Definition from_environment : Env :=
  {| REACT_APP_TWILIO_ACCOUNT_SID := Some (js "AC0123");
     REACT_APP_TWILIO_AUTH_TOKEN := Some (js "secret");
     REACT_APP_TWILIO_WHATSAPP_FROM := Some (js "+14155238886");
     REACT_APP_BACKEND_URL := None;
     localStorage_getItem := fun _ _ => Returned None;
     JSON_parse := fun _ => Thrown (Error (js "Unexpected token"));
     btoa := fun s => Returned s;
     fetch := fun _ _ => Returned accepted;
     emailjs_send := fun _ _ _ _ _ => Returned [ (js "text", js "OK") ] |}.

Definition config_response : Response :=
  {| ok := true; status := 200; json := Returned email_config |}.

(** A backend that serves and stores the EmailJS configuration. *)
Definition backend : Env :=
  {| REACT_APP_TWILIO_ACCOUNT_SID := None;
     REACT_APP_TWILIO_AUTH_TOKEN := None;
     REACT_APP_TWILIO_WHATSAPP_FROM := None;
     REACT_APP_BACKEND_URL := Some (js "https://api.example.org");
     localStorage_getItem := fun _ _ => Returned None;
     JSON_parse := fun _ => Thrown (Error (js "Unexpected token"));
     btoa := fun s => Returned s;
     fetch := fun _ _ => Returned config_response;
     emailjs_send := fun _ _ _ _ _ => Returned [ (js "text", js "OK") ] |}.

Definition fresh : World := {| trace := []; cachedConfig := None |}.

Definition email_ready : World :=
  {| trace := []; cachedConfig := Some email_config |}.

(** A cache that holds a public key only. *)
Definition key_only : World :=
  {| trace := []; cachedConfig := Some [ (js "publicKey", js "pk_1") ] |}.

Definition silent : Callback := fun _ _ _ _ _ => Returned tt.

Definition failing : Callback :=
  fun _ _ _ _ _ => Thrown (Error (js "cannot update the progress bar")).

(** Fails from its second call on. *)
Definition failing_later : Callback :=
  fun _ current _ _ _ =>
    if 1 <? current then Thrown (Error (js "cannot update the progress bar"))
    else Returned tt.

Definition maria : WhatsApp.Recipient :=
  {| WhatsApp.phone := js "0791234567";
     WhatsApp.name := Some (js "Maria Lopez") |}.

Definition john : WhatsApp.Recipient :=
  {| WhatsApp.phone := js "+14155551234"; WhatsApp.name := None |}.

Definition short : WhatsApp.Recipient :=
  {| WhatsApp.phone := js "12345"; WhatsApp.name := Some (js "Ana") |}.

Definition ana : Email.Recipient :=
  {| Email.email := js "ana@example.org"; Email.name := Some (js "Ana") |}.

Definition ben : Email.Recipient :=
  {| Email.email := js "ben@example.org"; Email.name := None |}.

Definition campaign : Campaign :=
  {| campaign_name := Some (js "Summer");
     campaign_message := js "Hello {pr" ++ [eacute] ++ js "nom}!";
     campaign_mediaUrl := None |}.

Definition hello : JsStr := js "Hello {pr" ++ [eacute] ++ js "nom}!".

(** "Maria", a tabulation, "Lopez": a name pasted from a spreadsheet. *)
Definition maria_tab : JsStr := js "Maria" ++ [9%N] ++ js "Lopez".

End Sample.

(** * Properties *)

(** ** Phone normalisation *)

Lemma filter_fixed (A : Type) (f : A -> bool) (l : list A) :
  forallb f l = true -> filter f l = l.
Proof.
  induction l as [|a l IH]; simpl; intro H; [reflexivity|].
  apply andb_true_iff in H as [Ha Hl].
  rewrite Ha, IH by assumption. reflexivity.
Qed.

Lemma forallb_filter (A : Type) (f : A -> bool) (l : list A) :
  forallb f (filter f l) = true.
Proof.
  induction l as [|a l IH]; simpl; [reflexivity|].
  destruct (f a) eqn:E; simpl; [rewrite E|]; assumption.
Qed.

Lemma forallb_tl (A : Type) (f : A -> bool) (l : list A) :
  forallb f l = true -> forallb f (tl l) = true.
Proof.
  destruct l; simpl; [trivial|]. intro H. apply andb_true_iff in H. tauto.
Qed.

(** A string of phone characters that begins with [+] is left as it is. *)
Lemma formatPhoneE164_fixed (s : JsStr) :
  startsWith s (js "+") = true -> forallb is_phone_char s = true ->
  formatPhoneE164 s = s.
Proof.
  intros Hplus Hall. unfold formatPhoneE164.
  destruct s as [|c s]; [reflexivity|].
  cbn [truthy negb]. rewrite (filter_fixed _ _ Hall), Hplus. reflexivity.
Qed.

(** The output of the normaliser on a non-empty input. *)
Lemma formatPhoneE164_shape (p : JsStr) :
  p <> [] ->
  startsWith (formatPhoneE164 p) (js "+") = true
  /\ forallb is_phone_char (formatPhoneE164 p) = true.
Proof.
  intro Hp. unfold formatPhoneE164.
  destruct p as [|c p]; [congruence|]. cbn [truthy negb].
  pose proof (forallb_filter is_phone_char (c :: p)) as Hall.
  set (cleaned := filter is_phone_char (c :: p)) in *. clearbody cleaned.
  destruct (startsWith cleaned (js "+")) eqn:Eplus; cbn [negb].
  - split; assumption.
  - destruct (startsWith cleaned (js "0")) eqn:Ezero.
    + split; [reflexivity|]. unfold substring.
      change (skipn 1 cleaned) with (tl cleaned).
      cbn. apply forallb_tl. assumption.
    + destruct (10 <? length cleaned); split; cbn;
        solve [assumption | destruct cleaned; reflexivity].
Qed.

(** C10. [formatPhoneE164] is idempotent: it maps the empty string to the
    empty string and every other string to a string that begins with [+]
    and holds only [+] and digits, and normalising a normalised number
    leaves it unchanged. *)
Theorem formatPhoneE164_idempotent (p : JsStr) :
  formatPhoneE164 (formatPhoneE164 p) = formatPhoneE164 p
  /\ (formatPhoneE164 p = []
      \/ (exists rest, formatPhoneE164 p = plus_sign :: rest)
         /\ forallb (fun c => is_digit c || (c =? plus_sign)%N)
                    (formatPhoneE164 p) = true)
  /\ (formatPhoneE164 p = [] <-> p = []).
Proof.
  destruct p as [|c p].
  - repeat split; auto.
  - assert (Hne : c :: p <> []) by discriminate.
    destruct (formatPhoneE164_shape Hne) as [Hplus Hall].
    split; [apply formatPhoneE164_fixed; assumption|].
    assert (Hhead : exists rest, formatPhoneE164 (c :: p) = plus_sign :: rest).
    { destruct (formatPhoneE164 (c :: p)) as [|d rest]; [discriminate|].
      simpl in Hplus. apply andb_true_iff in Hplus as [Hd _].
      apply N.eqb_eq in Hd. subst d. exists rest. reflexivity. }
    split; [right; split; assumption|].
    split; [|discriminate].
    destruct Hhead as [rest Hrest]. rewrite Hrest. discriminate.
Qed.

(** C3, as the code has it.  A leading zero is replaced by the Swiss code, a
    number with a [+] is unchanged, and "4155551234", which has ten digits
    and so is not longer than ten, also receives the Swiss code; a number of
    eleven digits only receives the [+]. *)
Theorem formatPhoneE164_examples :
  formatPhoneE164 (js "0791234567") = js "+41791234567"
  /\ formatPhoneE164 (js "+14155551234") = js "+14155551234"
  /\ formatPhoneE164 (js "4155551234") = js "+414155551234"
  /\ formatPhoneE164 (js "14155551234") = js "+14155551234".
Proof. repeat split. Qed.

(** C3, as stated, fails on its third example. *)
Lemma formatPhoneE164_ten_digits_not_plus_only :
  formatPhoneE164 (js "4155551234") <> js "+4155551234".
Proof. intro H. vm_compute in H. discriminate H. Qed.

(** ** Personalisation *)

(** A replacement without [$] is inserted as it stands. *)
Lemma getSubstitution_plain (matched before after replacement : JsStr) :
  forallb (fun c => negb (c =? dollar)%N) replacement = true ->
  getSubstitution matched before after replacement = replacement.
Proof.
  induction replacement as [|c rest IH]; simpl; intro H; [reflexivity|].
  apply andb_true_iff in H as [Hc Hrest].
  apply negb_true_iff in Hc. rewrite Hc, IH by assumption. reflexivity.
Qed.

Lemma replace_scan_plain (pat replacement : JsStr) :
  forallb (fun c => negb (c =? dollar)%N) replacement = true ->
  forall s skip before,
    replace_scan pat replacement skip before s
    = literal_replace_all pat replacement skip s.
Proof.
  intros Hplain s.
  induction s as [|c rest IH]; intros skip before; [reflexivity|].
  cbn [replace_scan literal_replace_all].
  destruct skip as [|k]; [|apply IH].
  destruct (match_at pat (c :: rest)).
  - rewrite getSubstitution_plain, IH by assumption. reflexivity.
  - rewrite IH. reflexivity.
Qed.

(** C4, as the code has it.  With a name, every occurrence of the
    placeholder, in any letter case, becomes the part of the name before its
    first space (U+0020), provided that part holds no [$]; without a name,
    or with an empty one, the template is unchanged.  The two examples of
    the specification hold. *)
Theorem personalize_first_name (template name : JsStr)
    (Hname : truthy name = true)
    (Hplain : forallb (fun c => negb (c =? dollar)%N)
                      (split_space_first name) = true) :
  personalize template (Some name)
    = literal_replace_all PRENOM (split_space_first name) 0 template
  /\ personalize template None = template
  /\ personalize template (Some []) = template
  /\ personalize Sample.hello (Some (js "Maria Lopez")) = js "Hello Maria!"
  /\ personalize Sample.hello None = Sample.hello
  /\ personalize (js "{PR" ++ [201%N] ++ js "NOM}, {Pr" ++ [eacute] ++ js "nom}")
                 (Some (js "Maria Lopez"))
     = js "Maria, Maria".
Proof.
  repeat split.
  unfold personalize, replace_prenom. rewrite Hname.
  apply replace_scan_plain. assumption.
Qed.

Lemma personalize_first_name_witness :
  personalize Sample.hello (Some (js "Maria Lopez"))
    = literal_replace_all PRENOM (split_space_first (js "Maria Lopez")) 0
                          Sample.hello
  /\ personalize Sample.hello None = Sample.hello
  /\ personalize Sample.hello (Some []) = Sample.hello
  /\ personalize Sample.hello (Some (js "Maria Lopez")) = js "Hello Maria!"
  /\ personalize Sample.hello None = Sample.hello
  /\ personalize (js "{PR" ++ [201%N] ++ js "NOM}, {Pr" ++ [eacute] ++ js "nom}")
                 (Some (js "Maria Lopez"))
     = js "Maria, Maria".
Proof.
  apply (@personalize_first_name Sample.hello (js "Maria Lopez")); reflexivity.
Defined.

(** C4, as stated, fails for a name whose parts are separated by a
    tabulation: the code keeps the whole name, the first
    whitespace-delimited token is "Maria". *)
Lemma personalize_tab_separated_name :
  personalize Sample.hello (Some Sample.maria_tab)
    = js "Hello Maria" ++ [9%N] ++ js "Lopez!"
  /\ spec_render Sample.hello (Some Sample.maria_tab) = js "Hello Maria!"
  /\ personalize Sample.hello (Some Sample.maria_tab)
     <> spec_render Sample.hello (Some Sample.maria_tab).
Proof.
  repeat split. intro H. vm_compute in H. discriminate H.
Qed.

(** A [$] in the first name is a substitution pattern of [replace]: the
    name "$&" puts the placeholder back. *)
Lemma personalize_dollar_pattern :
  personalize Sample.hello (Some (js "$& Lopez")) = Sample.hello.
Proof. reflexivity. Qed.

(** ** The monad and the dispatch loop *)

Lemma report_runs (onProgress : option Callback) :
  callback_returns onProgress ->
  forall current total phase name w,
  exists w',
    report onProgress current total phase name w = (Returned tt, w')
    /\ trace w' = trace w ++ reported onProgress current total phase name.
Proof.
  intros Hcb current total phase name w.
  destruct onProgress as [cb|]; simpl.
  - unfold perform. rewrite (Hcb cb eq_refl).
    eexists. split; reflexivity.
  - exists w. split; [reflexivity|]. symmetry. apply app_nil_r.
Qed.

Section BulkLoopFacts.

Variables R D : Type.
Variable address : R -> JsStr.
Variable name_of : R -> option JsStr.
Variable send : R -> M SendResult.
Variable sentDetail : R -> SendResult -> D.
Variable failedDetail : R -> option JsStr -> D.
Variable delay : nat.
Variable onProgress : option Callback.
Variable total : nat.

Hypothesis Hcb : callback_returns onProgress.

Local Abbreviation attempt_ := (attempt address send sentDetail failedDetail).
Local Abbreviation iteration_ :=
  (iteration address name_of send sentDetail failedDetail delay onProgress total).
Local Abbreviation loop_ :=
  (loop address name_of send sentDetail failedDetail delay onProgress total).
Local Abbreviation dispatch_ :=
  (dispatch address name_of send sentDetail failedDetail delay onProgress total).
Local Abbreviation recorded_ := (recorded sentDetail failedDetail).

(** A send that throws is recorded as a failure with the error's message. *)
Lemma attempt_thrown (r : R) (results : Results D) (w w1 : World) (e : JsError) :
  send r w = (Thrown e, w1) ->
  attempt_ r results w
  = (Returned (failure_recorded address failedDetail r (err_message e) results), w1).
Proof.
  intro Hsend. unfold attempt, try_catch, bind. rewrite Hsend. reflexivity.
Qed.

(** A send that returns a failure is recorded with its [error]. *)
Lemma attempt_failure (r : R) (results : Results D) (w w1 : World)
    (result : SendResult) :
  send r w = (Returned result, w1) -> success result = false ->
  attempt_ r results w
  = (Returned (failure_recorded address failedDetail r (error result) results), w1).
Proof.
  intros Hsend Hfail. unfold attempt, try_catch, bind.
  rewrite Hsend, Hfail. reflexivity.
Qed.

Lemma attempt_runs (r : R) (results : Results D) (w : World) :
  exists results',
    attempt_ r results w = (Returned results', snd (send r w))
    /\ sent results' + failed results' = sent results + failed results + 1
    /\ exists d, details results' = details results ++ [d] /\ recorded_ r d.
Proof.
  unfold attempt, try_catch, bind, ret.
  destruct (send r w) as [[result|e] w1]; cbn [snd];
    [destruct (success result)|];
    eexists; (split; [reflexivity|]); cbn;
    (split; [lia|]); eexists; (split; [reflexivity|]).
  - left. eexists. reflexivity.
  - right. eexists. reflexivity.
  - right. eexists. reflexivity.
Qed.

Lemma iteration_runs (i : nat) (r : R) (results : Results D) (w : World) :
  exists results' w1 w',
    iteration_ i r results w = (Returned results', w')
    /\ trace w1 = trace w
         ++ reported onProgress (i + 1) total (js "sending")
                     (Some (or_else (name_of r) (address r)))
    /\ trace w' = trace (snd (send r w1))
         ++ (if i <? total - 1 then [EvSleep delay] else [])
    /\ sent results' + failed results' = sent results + failed results + 1
    /\ exists d, details results' = details results ++ [d] /\ recorded_ r d.
Proof.
  destruct (report_runs Hcb (i + 1) total (js "sending")
              (Some (or_else (name_of r) (address r))) w) as (w1 & Hrep & Htr1).
  destruct (attempt_runs r results w1) as (results' & Hatt & Hcount & Hdet).
  exists results', w1.
  unfold iteration, bind. rewrite Hrep, Hatt.
  destruct (i <? total - 1); cbn.
  - eexists. repeat split; try eassumption; reflexivity.
  - eexists. repeat split; try eassumption; try reflexivity.
    cbn. symmetry. apply app_nil_r.
Qed.

(** The ledger after the loop: one more outcome and one more detail for
    each remaining recipient, in their order. *)
Lemma loop_accounting (rest : list R) :
  forall i results w,
  exists results' w',
    loop_ i rest results w = (Returned results', w')
    /\ sent results' + failed results'
       = sent results + failed results + length rest
    /\ exists ds, details results' = details results ++ ds
                  /\ Forall2 recorded_ rest ds.
Proof.
  induction rest as [|r rest IH]; intros i results w.
  - exists results, w. cbn. repeat split; [lia|].
    exists []. split; [symmetry; apply app_nil_r|constructor].
  - destruct (iteration_runs i r results w)
      as (r1 & w1 & w2 & Hit & _ & _ & Hcount & d & Hdet & Hrec).
    destruct (IH (i + 1) r1 w2) as (r2 & w3 & Hloop & Hcount2 & ds & Hdet2 & Hrecs).
    exists r2, w3. cbn [loop]. unfold bind at 1. rewrite Hit, Hloop.
    repeat split; [cbn [length]; lia|].
    exists (d :: ds). split; [|constructor; assumption].
    rewrite Hdet2, Hdet, <- app_assoc. reflexivity.
Qed.

(** A single send only adds host events to the trace. *)
Hypothesis Hframe :
  forall r w, exists evs,
    trace (snd (send r w)) = trace w ++ evs /\ forallb is_host evs = true.

Lemma loop_trace (rest : list R) :
  forall i results w,
  exists segs,
    length segs = length rest
    /\ Forall (fun seg => forallb is_host seg = true) segs
    /\ trace (snd (loop_ i rest results w))
       = trace w ++ iterations address name_of delay onProgress total i rest segs.
Proof.
  induction rest as [|r rest IH]; intros i results w.
  - exists []. cbn. repeat split; [constructor|]. symmetry. apply app_nil_r.
  - destruct (iteration_runs i r results w)
      as (r1 & w1 & w2 & Hit & Htr1 & Htr2 & _).
    destruct (Hframe r w1) as (seg & Hseg & Hhost).
    destruct (IH (i + 1) r1 w2) as (segs & Hlen & Hall & Htr3).
    exists (seg :: segs). cbn [loop iterations length].
    repeat split; [congruence|constructor; assumption|].
    unfold bind at 1. rewrite Hit, Htr3, Htr2, Hseg, Htr1.
    rewrite <- !app_assoc. reflexivity.
Qed.

(** The ledger after a whole dispatch. *)
Lemma dispatch_accounting (recipients : list R) (results : Results D) (w : World) :
  exists results' w',
    dispatch_ recipients results w = (Returned results', w')
    /\ sent results' + failed results'
       = sent results + failed results + length recipients
    /\ exists ds, details results' = details results ++ ds
                  /\ Forall2 recorded_ recipients ds.
Proof.
  destruct (loop_accounting recipients 0 results w)
    as (r1 & w1 & Hloop & Hcount & Hdet).
  destruct (report_runs Hcb total total (js "completed") None w1)
    as (w2 & Hrep & _).
  exists r1, w2. unfold dispatch, bind. rewrite Hloop, Hrep.
  repeat split; assumption.
Qed.

(** The trace of a whole dispatch. *)
Lemma dispatch_trace (recipients : list R) (results : Results D) (w : World) :
  exists segs,
    length segs = length recipients
    /\ Forall (fun seg => forallb is_host seg = true) segs
    /\ trace (snd (dispatch_ recipients results w))
       = trace w
         ++ iterations address name_of delay onProgress total 0 recipients segs
         ++ reported onProgress total total (js "completed") None.
Proof.
  destruct (loop_trace recipients 0 results w) as (segs & Hlen & Hall & Htr).
  destruct (loop_accounting recipients 0 results w) as (r1 & w1 & Hloop & _).
  destruct (report_runs Hcb total total (js "completed") None w1)
    as (w2 & Hrep & Htr2).
  exists segs. repeat split; try assumption.
  unfold dispatch, bind. rewrite Hloop in Htr |- *. rewrite Hrep.
  unfold ret. cbn [snd] in *. rewrite Htr2, Htr, <- app_assoc. reflexivity.
Qed.

(** A whole dispatch: its result and its trace. *)
Lemma dispatch_run (recipients : list R) (results : Results D) (w : World) :
  exists results' w' segs,
    dispatch_ recipients results w = (Returned results', w')
    /\ length segs = length recipients
    /\ Forall (fun seg => forallb is_host seg = true) segs
    /\ trace w'
       = trace w
         ++ iterations address name_of delay onProgress total 0 recipients segs
         ++ reported onProgress total total (js "completed") None.
Proof.
  destruct (dispatch_accounting recipients results w) as (r1 & w1 & Hrun & _).
  destruct (dispatch_trace recipients results w) as (segs & Hlen & Hall & Htr).
  rewrite Hrun in Htr. exists r1, w1, segs. repeat split; assumption.
Qed.

End BulkLoopFacts.

(** ** Projections of a run *)

Lemma host_no_sleep (seg : list Event) :
  forallb is_host seg = true -> filter is_sleep seg = [].
Proof.
  induction seg as [|ev seg IH]; cbn; intro H; [reflexivity|].
  apply andb_true_iff in H as [Hev Hseg]. unfold is_host in Hev.
  apply andb_true_iff in Hev as [Hs _]. apply negb_true_iff in Hs.
  rewrite Hs. auto.
Qed.

Lemma host_no_progress (seg : list Event) :
  forallb is_host seg = true -> filter is_progress seg = [].
Proof.
  induction seg as [|ev seg IH]; cbn; intro H; [reflexivity|].
  apply andb_true_iff in H as [Hev Hseg]. unfold is_host in Hev.
  apply andb_true_iff in Hev as [_ Hp]. apply negb_true_iff in Hp.
  rewrite Hp. auto.
Qed.

Lemma storage_is_host (evs : list Event) :
  forallb is_storage evs = true -> forallb is_host evs = true.
Proof.
  induction evs as [|ev evs IH]; cbn; intro H; [reflexivity|].
  apply andb_true_iff in H as [Hev Hevs]. rewrite IH by assumption.
  destruct ev; try discriminate; reflexivity.
Qed.

Lemma storage_no_fetch (evs : list Event) :
  forallb is_storage evs = true -> filter is_fetch evs = [].
Proof.
  induction evs as [|ev evs IH]; cbn; intro H; [reflexivity|].
  apply andb_true_iff in H as [Hev Hevs].
  destruct ev; try discriminate; cbn; auto.
Qed.

Lemma reported_no_sleep (onProgress : option Callback) (current total : nat)
    (phase : JsStr) (name : option JsStr) :
  filter is_sleep (reported onProgress current total phase name) = [].
Proof. destruct onProgress; reflexivity. Qed.

Section RunShapeFacts.

Variable R : Type.
Variable address : R -> JsStr.
Variable name_of : R -> option JsStr.
Variable delay : nat.
Variable onProgress : option Callback.
Variable total : nat.

Local Abbreviation iterations_ :=
  (iterations address name_of delay onProgress total).

(** Among the iterations that end the run there is one delay less than
    there are recipients. *)
Lemma iterations_sleeps (rest : list R) :
  forall i segs,
    length segs = length rest ->
    Forall (fun seg => forallb is_host seg = true) segs ->
    i + length rest = total ->
    filter is_sleep (iterations_ i rest segs)
    = repeat (EvSleep delay) (length rest - 1).
Proof.
  induction rest as [|r rest IH]; intros i segs Hlen Hall Htotal;
    [reflexivity|].
  destruct segs as [|seg segs]; [discriminate|].
  apply Forall_cons_iff in Hall as [Hseg Hsegs].
  cbn [iterations length] in *.
  rewrite !filter_app, reported_no_sleep, (host_no_sleep _ Hseg).
  rewrite (IH (i + 1) segs) by (congruence || assumption || lia).
  cbn [app]. destruct rest as [|r' rest].
  - cbn [length] in *. replace (i <? total - 1) with false; [reflexivity|].
    symmetry. apply Nat.ltb_ge. lia.
  - cbn [length] in *. replace (i <? total - 1) with true.
    + cbn. rewrite Nat.sub_0_r. reflexivity.
    + symmetry. apply Nat.ltb_lt. lia.
Qed.

(** The progress reports among the iterations are the [sending] reports of
    the recipients, in their order. *)
Lemma iterations_reports (rest : list R) :
  forall i segs,
    length segs = length rest ->
    Forall (fun seg => forallb is_host seg = true) segs ->
    filter is_progress (iterations_ i rest segs)
    = match onProgress with
      | Some _ => sending_reports address name_of total i rest
      | None => []
      end.
Proof.
  induction rest as [|r rest IH]; intros i segs Hlen Hall.
  - destruct onProgress; reflexivity.
  - destruct segs as [|seg segs]; [discriminate|].
    apply Forall_cons_iff in Hall as [Hseg Hsegs].
    cbn [iterations sending_reports length] in *.
    rewrite !filter_app, (host_no_progress _ Hseg).
    rewrite (IH (i + 1) segs) by (congruence || assumption).
    destruct onProgress; destruct (i <? total - 1); reflexivity.
Qed.

Lemma sending_reports_length (rest : list R) :
  forall i, length (sending_reports address name_of total i rest) = length rest.
Proof.
  induction rest as [|r rest IH]; intro i; cbn; [reflexivity|].
  rewrite IH. reflexivity.
Qed.

Lemma sending_reports_nth (rest : list R) :
  forall i k r,
    nth_error rest k = Some r ->
    nth_error (sending_reports address name_of total i rest) k
    = Some (EvProgress (i + k + 1) total (js "sending")
                       (Some (or_else (name_of r) (address r)))).
Proof.
  induction rest as [|r' rest IH]; intros i k r Hk.
  - destruct k; discriminate.
  - destruct k as [|k]; cbn [nth_error sending_reports] in *.
    + injection Hk as ->. rewrite Nat.add_0_r. reflexivity.
    + rewrite (IH (i + 1) k r Hk).
      replace (i + 1 + k + 1) with (i + S k + 1) by lia. reflexivity.
Qed.

(** A run over [total] recipients holds [total - 1] delays. *)
Lemma run_events_sleeps (recipients : list R) (prelude : list Event)
    (segs : list (list Event)) :
  total = length recipients ->
  forallb is_host prelude = true ->
  length segs = length recipients ->
  Forall (fun seg => forallb is_host seg = true) segs ->
  filter is_sleep
    (run_events address name_of delay onProgress total recipients prelude segs)
  = repeat (EvSleep delay) (length recipients - 1).
Proof.
  intros Htotal Hpre Hlen Hall. unfold run_events.
  rewrite !filter_app, (host_no_sleep _ Hpre), reported_no_sleep, app_nil_r.
  apply iterations_sleeps; try assumption. symmetry. exact Htotal.
Qed.

(** The progress reports of a run with a callback. *)
Lemma run_events_reports (recipients : list R) (prelude : list Event)
    (segs : list (list Event)) :
  forallb is_host prelude = true ->
  length segs = length recipients ->
  Forall (fun seg => forallb is_host seg = true) segs ->
  filter is_progress
    (run_events address name_of delay onProgress total recipients prelude segs)
  = match onProgress with
    | Some _ =>
        sending_reports address name_of total 0 recipients
        ++ [EvProgress total total (js "completed") None]
    | None => []
    end.
Proof.
  intros Hpre Hlen Hall. unfold run_events.
  rewrite !filter_app, (host_no_progress _ Hpre),
    (iterations_reports recipients 0 Hlen Hall).
  destruct onProgress; reflexivity.
Qed.

End RunShapeFacts.

(** ** Computations that only touch the host *)

Section Only.

Variable P : Event -> bool.

Lemma only_ret (A : Type) (a : A) : only P (ret a).
Proof. intro w. exists []. cbn. split; [symmetry; apply app_nil_r|reflexivity]. Qed.

Lemma only_throw (A : Type) (e : JsError) : only P (@throw A e).
Proof. intro w. exists []. cbn. split; [symmetry; apply app_nil_r|reflexivity]. Qed.

Lemma only_settle (A : Type) (o : Outcome A) : only P (settle o).
Proof. intro w. exists []. cbn. split; [symmetry; apply app_nil_r|reflexivity]. Qed.

Lemma only_read_cachedConfig : only P read_cachedConfig.
Proof. intro w. exists []. cbn. split; [symmetry; apply app_nil_r|reflexivity]. Qed.

Lemma only_write_cachedConfig (c : JsObj) : only P (write_cachedConfig c).
Proof. intro w. exists []. cbn. split; [symmetry; apply app_nil_r|reflexivity]. Qed.

Lemma only_perform (A : Type) (ev : Event) (answer : list Event -> Outcome A) :
  P ev = true -> only P (perform ev answer).
Proof. intros Hev w. exists [ev]. cbn. rewrite Hev. split; reflexivity. Qed.

Lemma only_bind (A B : Type) (m : M A) (k : A -> M B) :
  only P m -> (forall a, only P (k a)) -> only P (bind m k).
Proof.
  intros Hm Hk w. unfold bind.
  destruct (Hm w) as (evs & Htr & Hall).
  destruct (m w) as [[a|e] w1]; cbn [snd] in *.
  - destruct (Hk a w1) as (evs' & Htr' & Hall').
    exists (evs ++ evs'). rewrite Htr', Htr, app_assoc, forallb_app, Hall, Hall'.
    split; reflexivity.
  - exists evs. split; assumption.
Qed.

Lemma only_try_catch (A : Type) (m : M A) (handler : JsError -> M A) :
  only P m -> (forall e, only P (handler e)) -> only P (try_catch m handler).
Proof.
  intros Hm Hh w. unfold try_catch.
  destruct (Hm w) as (evs & Htr & Hall).
  destruct (m w) as [[a|e] w1]; cbn [snd] in *.
  - exists evs. split; assumption.
  - destruct (Hh e w1) as (evs' & Htr' & Hall').
    exists (evs ++ evs'). rewrite Htr', Htr, app_assoc, forallb_app, Hall, Hall'.
    split; reflexivity.
Qed.

End Only.

Lemma only_weaken (A : Type) (P Q : Event -> bool) (m : M A) :
  (forall evs, forallb P evs = true -> forallb Q evs = true) ->
  only P m -> only Q m.
Proof.
  intros HPQ Hm w. destruct (Hm w) as (evs & Htr & Hall).
  exists evs. split; [assumption|apply HPQ; assumption].
Qed.

(** Breaks a computation into its host calls. *)
Ltac only_step :=
  cbv beta zeta;
  first
    [ apply only_ret
    | apply only_throw
    | apply only_settle
    | apply only_read_cachedConfig
    | apply only_write_cachedConfig
    | apply only_perform; reflexivity
    | apply only_bind; [|intro]
    | apply only_try_catch; [|intro]
    | match goal with
      | |- only _ (match ?x with _ => _ end) => destruct x
      end ].

Ltac only_auto := repeat only_step.

(** ** whatsappService.js: the configuration *)

Lemma truthy_opt_true (o : option JsStr) :
  truthy_opt o = true <-> exists s, o = Some s /\ s <> [].
Proof.
  split.
  - destruct o as [[|c s]|]; try discriminate. intros _.
    exists (c :: s). split; [reflexivity|discriminate].
  - intros (s & -> & Hs). destruct s; [congruence|reflexivity].
Qed.

Lemma complete_fields (config : JsObj) :
  WhatsApp.complete config = true <->
  truthy_opt (get config (js "accountSid")) = true
  /\ truthy_opt (get config (js "authToken")) = true
  /\ truthy_opt (get config (js "fromNumber")) = true.
Proof.
  unfold WhatsApp.complete. rewrite !andb_true_iff. tauto.
Qed.

Lemma incomplete_fields (config : JsObj) :
  WhatsApp.complete config = false <->
  truthy_opt (get config (js "accountSid")) = false
  \/ truthy_opt (get config (js "authToken")) = false
  \/ truthy_opt (get config (js "fromNumber")) = false.
Proof.
  unfold WhatsApp.complete. rewrite !andb_false_iff. tauto.
Qed.

(** Reading the configuration touches the storage and the console only. *)
Lemma getWhatsAppConfig_only (env : Env) :
  only is_storage (WhatsApp.getWhatsAppConfig env).
Proof. unfold WhatsApp.getWhatsAppConfig, console_error, emit. only_auto. Qed.

Lemma getWhatsAppConfig_returns (env : Env) (w : World) :
  exists config, fst (WhatsApp.getWhatsAppConfig env w) = Returned config.
Proof.
  unfold WhatsApp.getWhatsAppConfig, bind, try_catch, perform, settle, ret.
  cbv beta.
  destruct (localStorage_getItem env (trace w) WhatsApp.WHATSAPP_CONFIG_KEY)
    as [[text|]|e]; cbn; try (eexists; reflexivity).
  destruct (truthy text); cbn; try (eexists; reflexivity).
  destruct (JSON_parse env text) as [config|e]; cbn; try (eexists; reflexivity).
  destruct (WhatsApp.complete config); cbn; eexists; reflexivity.
Qed.

(** C9. [getWhatsAppConfig] always returns, and what it returns is the
    default configuration or the stored one with its three credentials
    non-empty: a storage read that throws, an absent or unparsable value and
    a stored configuration with an empty credential all give the default. *)
Theorem getWhatsAppConfig_default_or_complete (env : Env) (w : World) :
  let stored :=
    localStorage_getItem env (trace w) WhatsApp.WHATSAPP_CONFIG_KEY in
  exists config w',
    WhatsApp.getWhatsAppConfig env w = (Returned config, w')
    /\ (config = WhatsApp.DEFAULT_CONFIG env
        \/ exists text,
             stored = Returned (Some text)
             /\ JSON_parse env text = Returned config
             /\ (exists s, get config (js "accountSid") = Some s /\ s <> [])
             /\ (exists s, get config (js "authToken") = Some s /\ s <> [])
             /\ (exists s, get config (js "fromNumber") = Some s /\ s <> []))
    /\ ((exists e, stored = Thrown e) -> config = WhatsApp.DEFAULT_CONFIG env)
    /\ (stored = Returned None -> config = WhatsApp.DEFAULT_CONFIG env)
    /\ (forall text,
          stored = Returned (Some text) ->
          (exists e, JSON_parse env text = Thrown e) ->
          config = WhatsApp.DEFAULT_CONFIG env)
    /\ (forall text parsed,
          stored = Returned (Some text) ->
          JSON_parse env text = Returned parsed ->
          truthy_opt (get parsed (js "accountSid")) = false
          \/ truthy_opt (get parsed (js "authToken")) = false
          \/ truthy_opt (get parsed (js "fromNumber")) = false ->
          config = WhatsApp.DEFAULT_CONFIG env).
Proof.
  intro stored.
  unfold WhatsApp.getWhatsAppConfig, bind, try_catch, perform, settle, ret,
    console_error, emit.
  cbv beta. fold stored.
  destruct stored as [[text|]|e] eqn:Hstored; cbn.
  - destruct (truthy text) eqn:Htext; cbn.
    + destruct (JSON_parse env text) as [parsed|e] eqn:Hparse; cbn.
      * destruct (WhatsApp.complete parsed) eqn:Hcomplete; cbn.
        -- do 2 eexists. split; [reflexivity|].
           apply complete_fields in Hcomplete as H3.
           destruct H3 as (Ha & Ht & Hf).
           split; [right; exists text; repeat split;
                   try assumption; apply truthy_opt_true; assumption|].
           repeat split.
           ++ intros (e & He). discriminate He.
           ++ discriminate.
           ++ intros text' Heq (e & He). injection Heq as <-. congruence.
           ++ intros text' parsed' Heq Hp Hmiss. injection Heq as <-.
              rewrite Hparse in Hp. injection Hp as <-.
              apply incomplete_fields in Hmiss. congruence.
        -- do 2 eexists. split; [reflexivity|]. split; [left; reflexivity|].
           repeat split; reflexivity.
      * do 2 eexists. split; [reflexivity|]. split; [left; reflexivity|].
        repeat split; reflexivity.
    + do 2 eexists. split; [reflexivity|]. split; [left; reflexivity|].
      repeat split; reflexivity.
  - do 2 eexists. split; [reflexivity|]. split; [left; reflexivity|].
    repeat split; reflexivity.
  - do 2 eexists. split; [reflexivity|]. split; [left; reflexivity|].
    repeat split; reflexivity.
Qed.

Lemma getWhatsAppConfig_default_or_complete_witness :
  exists config w',
    WhatsApp.getWhatsAppConfig Sample.configured Sample.fresh
      = (Returned config, w')
    /\ config = Sample.stored_config.
Proof.
  destruct (getWhatsAppConfig_default_or_complete Sample.configured Sample.fresh)
    as (config & w' & Hrun & _).
  exists config, w'. split; [exact Hrun|].
  cbv in Hrun. injection Hrun as <- _. reflexivity.
Defined.

(** ** whatsappService.js: sending *)

Lemma isWhatsAppConfigured_runs (env : Env) (w : World) :
  exists config evs,
    WhatsApp.getWhatsAppConfig env w
      = (Returned config, snd (WhatsApp.getWhatsAppConfig env w))
    /\ WhatsApp.isWhatsAppConfigured env w
       = (Returned (WhatsApp.complete config),
          snd (WhatsApp.getWhatsAppConfig env w))
    /\ trace (snd (WhatsApp.getWhatsAppConfig env w)) = trace w ++ evs
    /\ forallb is_storage evs = true.
Proof.
  destruct (getWhatsAppConfig_returns env w) as (config & Hret).
  destruct (getWhatsAppConfig_only env w) as (evs & Htr & Hall).
  exists config, evs. unfold WhatsApp.isWhatsAppConfigured, bind.
  destruct (WhatsApp.getWhatsAppConfig env w) as [o w1]. cbn in *. subst o.
  repeat split; assumption.
Qed.

(** A single WhatsApp send causes neither a delay nor a progress report. *)
Lemma sendWhatsAppMessage_only (env : Env) (params : WhatsApp.Params) :
  only is_host (WhatsApp.sendWhatsAppMessage env params).
Proof.
  unfold WhatsApp.sendWhatsAppMessage, console_error, emit.
  apply only_bind.
  - apply only_weaken with (P := is_storage);
      [exact storage_is_host|apply getWhatsAppConfig_only].
  - intro config. only_auto.
Qed.

(** Without a complete configuration the bulk send returns before its loop. *)
Lemma sendBulkWhatsAppWith_incomplete (env : Env)
    (send : WhatsApp.Params -> M SendResult)
    (recipients : list WhatsApp.Recipient) (campaign : Campaign)
    (onProgress : option Callback) (w : World) :
  fst (WhatsApp.isWhatsAppConfigured env w) = Returned false ->
  WhatsApp.sendBulkWhatsAppWith env send recipients campaign onProgress w
  = (Returned {| sent := 0; failed := length recipients;
                 errors := [WhatsApp.NOT_CONFIGURED]; details := [] |},
     snd (WhatsApp.getWhatsAppConfig env w)).
Proof.
  intro Hcfg.
  destruct (isWhatsAppConfigured_runs env w) as (config & evs & _ & Hrun & _).
  rewrite Hrun in Hcfg. cbn in Hcfg. injection Hcfg as Hcfg.
  unfold WhatsApp.sendBulkWhatsAppWith, bind. rewrite Hrun, Hcfg. reflexivity.
Qed.

(** With a complete configuration it runs the dispatch loop. *)
Lemma sendBulkWhatsAppWith_complete (env : Env)
    (send : WhatsApp.Params -> M SendResult)
    (recipients : list WhatsApp.Recipient) (campaign : Campaign)
    (onProgress : option Callback) (w : World) :
  fst (WhatsApp.isWhatsAppConfigured env w) = Returned true ->
  WhatsApp.sendBulkWhatsAppWith env send recipients campaign onProgress w
  = dispatch WhatsApp.phone WhatsApp.name
      (fun recipient => send (WhatsApp.message_for campaign recipient))
      WhatsApp.sentDetail WhatsApp.failedDetail 500 onProgress
      (length recipients) recipients
      {| sent := 0; failed := 0; errors := []; details := [] |}
      (snd (WhatsApp.getWhatsAppConfig env w)).
Proof.
  intro Hcfg.
  destruct (isWhatsAppConfigured_runs env w) as (config & evs & _ & Hrun & _).
  rewrite Hrun in Hcfg. cbn in Hcfg. injection Hcfg as Hcfg.
  unfold WhatsApp.sendBulkWhatsAppWith, bind. rewrite Hrun, Hcfg. reflexivity.
Qed.

(** C2. When the configuration in force lacks an account SID, an auth token
    or a sender number, [sendBulkWhatsApp] returns at once with every
    recipient counted as failed, none as sent, and the one message
    [WhatsApp API non configur\u00e9]; the run only reads the storage, so no
    network call is made, and the single send is never called, whatever it
    is. *)
Theorem sendBulkWhatsApp_not_configured (env : Env)
    (recipients : list WhatsApp.Recipient) (campaign : Campaign)
    (onProgress : option Callback) (w : World) (config : JsObj)
    (Hconfig : fst (WhatsApp.getWhatsAppConfig env w) = Returned config)
    (Hmissing : truthy_opt (get config (js "accountSid")) = false
                \/ truthy_opt (get config (js "authToken")) = false
                \/ truthy_opt (get config (js "fromNumber")) = false) :
  let unsent :=
    {| sent := 0; failed := length recipients;
       errors := [WhatsApp.NOT_CONFIGURED]; details := [] |} in
  exists w' evs,
    WhatsApp.sendBulkWhatsApp env recipients campaign onProgress w
      = (Returned unsent, w')
    /\ (forall send,
          WhatsApp.sendBulkWhatsAppWith env send recipients campaign onProgress w
          = (Returned unsent, w'))
    /\ trace w' = trace w ++ evs
    /\ forallb is_storage evs = true
    /\ filter is_fetch evs = []
    /\ length (errors unsent) = 1.
Proof.
  intro unsent.
  destruct (isWhatsAppConfigured_runs env w)
    as (config' & evs & Hget & Hrun & Htr & Hall).
  rewrite Hget in Hconfig. cbn in Hconfig. injection Hconfig as ->.
  apply incomplete_fields in Hmissing.
  assert (Hcfg : fst (WhatsApp.isWhatsAppConfigured env w) = Returned false).
  { rewrite Hrun. cbn. congruence. }
  exists (snd (WhatsApp.getWhatsAppConfig env w)), evs.
  split; [apply sendBulkWhatsAppWith_incomplete; assumption|].
  split; [intro send; apply sendBulkWhatsAppWith_incomplete; assumption|].
  repeat split; try assumption. apply storage_no_fetch. assumption.
Qed.

Lemma sendBulkWhatsApp_not_configured_witness :
  exists w' evs,
    WhatsApp.sendBulkWhatsApp Sample.unconfigured [Sample.maria; Sample.john]
      Sample.campaign (Some Sample.silent) Sample.fresh
    = (Returned {| sent := 0; failed := 2;
                   errors := [WhatsApp.NOT_CONFIGURED]; details := [] |}, w')
    /\ trace w' = trace Sample.fresh ++ evs
    /\ filter is_fetch evs = [].
Proof.
  destruct (@sendBulkWhatsApp_not_configured Sample.unconfigured
              [Sample.maria; Sample.john] Sample.campaign
              (Some Sample.silent) Sample.fresh
              (WhatsApp.DEFAULT_CONFIG Sample.unconfigured)
              eq_refl (or_introl eq_refl))
    as (w' & evs & Hrun & _ & Htr & _ & Hfetch & _).
  exists w', evs. repeat split; assumption.
Defined.

(** C5, as the code has it.  With a complete configuration, a recipient
    number whose E.164 form has fewer than 10 code units makes
    [sendWhatsAppMessage] return the failure [{success: false, error: 'Num\u00e9ro de t\u00e9l\u00e9phone
    invalide'}] after the storage read alone: no request is sent. *)
Theorem sendWhatsAppMessage_invalid_number (env : Env)
    (params : WhatsApp.Params) (w : World) (config : JsObj)
    (Hconfig : fst (WhatsApp.getWhatsAppConfig env w) = Returned config)
    (Hcomplete : truthy_opt (get config (js "accountSid")) = true
                 /\ truthy_opt (get config (js "authToken")) = true
                 /\ truthy_opt (get config (js "fromNumber")) = true)
    (Hshort : length (formatPhoneE164 (WhatsApp.to params)) < 10) :
  exists w' evs,
    WhatsApp.sendWhatsAppMessage env params w
    = (Returned {| success := false; sid := None; delivery_status := None;
                   error := Some WhatsApp.INVALID_PHONE; code := None;
                   response := None |}, w')
    /\ w' = snd (WhatsApp.getWhatsAppConfig env w)
    /\ trace w' = trace w ++ evs
    /\ forallb is_storage evs = true
    /\ filter is_fetch evs = [].
Proof.
  destruct (isWhatsAppConfigured_runs env w)
    as (config' & evs & Hget & _ & Htr & Hall).
  rewrite Hget in Hconfig. cbn in Hconfig. injection Hconfig as ->.
  destruct Hcomplete as (Ha & Ht & Hf).
  exists (snd (WhatsApp.getWhatsAppConfig env w)), evs.
  repeat split; try assumption; [|apply storage_no_fetch; assumption].
  unfold WhatsApp.sendWhatsAppMessage, bind. rewrite Hget, Ha, Ht, Hf.
  cbn [negb orb].
  apply Nat.ltb_lt in Hshort. rewrite Hshort, orb_true_r. reflexivity.
Qed.

Lemma sendWhatsAppMessage_invalid_number_witness :
  exists w' evs,
    WhatsApp.sendWhatsAppMessage Sample.configured
      (WhatsApp.message_for Sample.campaign Sample.short) Sample.fresh
    = (Returned {| success := false; sid := None; delivery_status := None;
                   error := Some WhatsApp.INVALID_PHONE; code := None;
                   response := None |}, w')
    /\ trace w' = trace Sample.fresh ++ evs
    /\ filter is_fetch evs = [].
Proof.
  destruct (@sendWhatsAppMessage_invalid_number Sample.configured
              (WhatsApp.message_for Sample.campaign Sample.short) Sample.fresh
              Sample.stored_config eq_refl
              (conj eq_refl (conj eq_refl eq_refl)))
    as (w' & evs & Hrun & _ & Htr & _ & Hfetch).
  - vm_compute. lia.
  - exists w', evs. repeat split; assumption.
Defined.

(** C5, as stated, fails on the reason: for the number "12345" the failure
    carries the message of line 96, not "invalid address". *)
Lemma sendWhatsAppMessage_invalid_number_reason :
  length (formatPhoneE164 (WhatsApp.phone Sample.short)) < 10
  /\ fst (WhatsApp.sendWhatsAppMessage Sample.configured
            (WhatsApp.message_for Sample.campaign Sample.short) Sample.fresh)
     = Returned {| success := false; sid := None; delivery_status := None;
                   error := Some WhatsApp.INVALID_PHONE; code := None;
                   response := None |}
  /\ WhatsApp.INVALID_PHONE <> js "invalid address"
  /\ ~ (exists result,
          fst (WhatsApp.sendWhatsAppMessage Sample.configured
                 (WhatsApp.message_for Sample.campaign Sample.short)
                 Sample.fresh)
          = Returned result
          /\ error result = Some (js "invalid address")).
Proof.
  split; [vm_compute; lia|]. split; [reflexivity|].
  split; [intro H; vm_compute in H; discriminate H|].
  intros (result & Hrun & Herr). vm_compute in Hrun.
  injection Hrun as <-. vm_compute in Herr. discriminate Herr.
Qed.

(** ** emailService.js *)

Lemma getEmailJSConfig_only (env : Env) :
  only is_host (Email.getEmailJSConfig env).
Proof. unfold Email.getEmailJSConfig, console_error, emit. only_auto. Qed.

Lemma getEmailJSConfig_returns (env : Env) (w : World) :
  exists config, fst (Email.getEmailJSConfig env w) = Returned config.
Proof.
  unfold Email.getEmailJSConfig, bind, try_catch, perform, settle, ret,
    write_cachedConfig, console_error, emit.
  cbv beta.
  destruct (fetch env (trace w) (Email.config_request env)) as [resp|e];
    cbn; try (eexists; reflexivity).
  destruct (ok resp); cbn; try (eexists; reflexivity).
  destruct (json resp); cbn; eexists; reflexivity.
Qed.

Lemma initEmailJS_only (env : Env) : only is_host Email.initEmailJS.
Proof. unfold Email.initEmailJS, emit. only_auto. Qed.

Lemma prepare_only (env : Env) : only is_host (Email.prepare env).
Proof.
  unfold Email.prepare.
  apply only_bind; [only_auto|intro cached].
  apply only_bind; [|intro; apply initEmailJS_only; exact env].
  destruct cached; [only_auto|].
  apply only_bind; [apply getEmailJSConfig_only|intro; only_auto].
Qed.

Lemma initEmailJS_returns (w : World) :
  exists b, fst (Email.initEmailJS w) = Returned b.
Proof.
  unfold Email.initEmailJS, bind, read_cachedConfig, emit, perform, ret.
  cbv beta iota.
  match goal with |- context [if ?b then _ else _] => destruct b end;
    cbn; eexists; reflexivity.
Qed.

Lemma prepare_returns (env : Env) (w : World) :
  exists b, fst (Email.prepare env w) = Returned b.
Proof.
  unfold Email.prepare, bind at 1 2. unfold read_cachedConfig at 1.
  destruct (cachedConfig w) as [c|].
  - unfold ret at 1. apply initEmailJS_returns.
  - unfold bind at 1.
    destruct (getEmailJSConfig_returns env w) as (config & Hret).
    destruct (Email.getEmailJSConfig env w) as [o w1]. cbn in Hret. subst o.
    unfold ret at 1. apply initEmailJS_returns.
Qed.

(** A single e-mail send causes neither a delay nor a progress report. *)
Lemma sendEmail_only (env : Env) (params : Email.Params) :
  only is_host (Email.sendEmail env params).
Proof.
  unfold Email.sendEmail, console_error, emit.
  apply only_bind; [only_auto|intro cached].
  apply only_bind.
  - destruct cached; [only_auto|apply getEmailJSConfig_only].
  - intro config. only_auto.
Qed.

Lemma sendBulkEmailsWith_incomplete (env : Env)
    (send : Email.Params -> M SendResult)
    (recipients : list Email.Recipient) (campaign : Campaign)
    (onProgress : option Callback) (w : World) :
  fst (Email.prepare env w) = Returned false ->
  Email.sendBulkEmailsWith env send recipients campaign onProgress w
  = (Returned {| sent := 0; failed := length recipients;
                 errors := [Email.NOT_CONFIGURED]; details := [] |},
     snd (Email.prepare env w)).
Proof.
  intro Hcfg. unfold Email.sendBulkEmailsWith, bind.
  destruct (Email.prepare env w) as [o w1]. cbn in Hcfg. subst o. reflexivity.
Qed.

Lemma sendBulkEmailsWith_complete (env : Env)
    (send : Email.Params -> M SendResult)
    (recipients : list Email.Recipient) (campaign : Campaign)
    (onProgress : option Callback) (w : World) :
  fst (Email.prepare env w) = Returned true ->
  Email.sendBulkEmailsWith env send recipients campaign onProgress w
  = dispatch Email.email Email.name
      (fun recipient => send (Email.message_for campaign recipient))
      Email.sentDetail Email.failedDetail 200 onProgress
      (length recipients) recipients
      {| sent := 0; failed := 0; errors := []; details := [] |}
      (snd (Email.prepare env w)).
Proof.
  intro Hcfg. unfold Email.sendBulkEmailsWith, bind.
  destruct (Email.prepare env w) as [o w1]. cbn in Hcfg. subst o. reflexivity.
Qed.

(** ** Whole runs *)

Lemma sendBulkWhatsApp_run (env : Env) (recipients : list WhatsApp.Recipient)
    (campaign : Campaign) (onProgress : option Callback) (w : World) :
  callback_returns onProgress ->
  fst (WhatsApp.isWhatsAppConfigured env w) = Returned true ->
  exists results w' prelude segs,
    WhatsApp.sendBulkWhatsApp env recipients campaign onProgress w
      = (Returned results, w')
    /\ trace w'
       = trace w
         ++ run_events WhatsApp.phone WhatsApp.name 500 onProgress
              (length recipients) recipients prelude segs
    /\ forallb is_host prelude = true
    /\ length segs = length recipients
    /\ Forall (fun seg => forallb is_host seg = true) segs.
Proof.
  intros Hcb Hcfg.
  destruct (isWhatsAppConfigured_runs env w) as (config & pre & _ & _ & Hpre & Hst).
  destruct (@dispatch_run _ _ WhatsApp.phone WhatsApp.name
              (fun r =>
                 WhatsApp.sendWhatsAppMessage env (WhatsApp.message_for campaign r))
              WhatsApp.sentDetail WhatsApp.failedDetail 500 onProgress
              (length recipients) Hcb
              (fun r => sendWhatsAppMessage_only env (WhatsApp.message_for campaign r))
              recipients
              {| sent := 0; failed := 0; errors := []; details := [] |}
              (snd (WhatsApp.getWhatsAppConfig env w)))
    as (results & w' & segs & Hrun & Hlen & Hall & Htr).
  exists results, w', pre, segs.
  unfold WhatsApp.sendBulkWhatsApp.
  rewrite sendBulkWhatsAppWith_complete by assumption.
  repeat split; try assumption; [|apply storage_is_host; assumption].
  unfold run_events. rewrite Htr, Hpre, <- !app_assoc. reflexivity.
Qed.

Lemma sendBulkEmails_run (env : Env) (recipients : list Email.Recipient)
    (campaign : Campaign) (onProgress : option Callback) (w : World) :
  callback_returns onProgress ->
  fst (Email.prepare env w) = Returned true ->
  exists results w' prelude segs,
    Email.sendBulkEmails env recipients campaign onProgress w
      = (Returned results, w')
    /\ trace w'
       = trace w
         ++ run_events Email.email Email.name 200 onProgress
              (length recipients) recipients prelude segs
    /\ forallb is_host prelude = true
    /\ length segs = length recipients
    /\ Forall (fun seg => forallb is_host seg = true) segs.
Proof.
  intros Hcb Hcfg.
  destruct (prepare_only env w) as (pre & Hpre & Hhost).
  destruct (@dispatch_run _ _ Email.email Email.name
              (fun r => Email.sendEmail env (Email.message_for campaign r))
              Email.sentDetail Email.failedDetail 200 onProgress
              (length recipients) Hcb
              (fun r => sendEmail_only env (Email.message_for campaign r))
              recipients
              {| sent := 0; failed := 0; errors := []; details := [] |}
              (snd (Email.prepare env w)))
    as (results & w' & segs & Hrun & Hlen & Hall & Htr).
  exists results, w', pre, segs.
  unfold Email.sendBulkEmails.
  rewrite sendBulkEmailsWith_complete by assumption.
  repeat split; try assumption.
  unfold run_events. rewrite Htr, Hpre, <- !app_assoc. reflexivity.
Qed.

Lemma recorded_whatsapp (r : WhatsApp.Recipient) (d : WhatsApp.Detail) :
  recorded WhatsApp.sentDetail WhatsApp.failedDetail r d ->
  WhatsApp.d_phone d = WhatsApp.phone r /\ WhatsApp.d_name d = WhatsApp.name r.
Proof. intros [(result & ->)|(reason & ->)]; split; reflexivity. Qed.

Lemma recorded_email (r : Email.Recipient) (d : Email.Detail) :
  recorded Email.sentDetail Email.failedDetail r d ->
  Email.d_email d = Email.email r /\ Email.d_name d = Email.name r.
Proof. intros [(result & ->)|(reason & ->)]; split; reflexivity. Qed.

(** The ledger of a WhatsApp bulk send, whatever the single send does. *)
Lemma sendBulkWhatsAppWith_ledger (env : Env)
    (send : WhatsApp.Params -> M SendResult)
    (recipients : list WhatsApp.Recipient) (campaign : Campaign)
    (onProgress : option Callback) (w : World) :
  callback_returns onProgress ->
  exists results w',
    WhatsApp.sendBulkWhatsAppWith env send recipients campaign onProgress w
      = (Returned results, w')
    /\ sent results + failed results = length recipients
    /\ ((fst (WhatsApp.isWhatsAppConfigured env w) = Returned true
         /\ length (details results) = length recipients
         /\ Forall2 (fun r d => WhatsApp.d_phone d = WhatsApp.phone r
                                /\ WhatsApp.d_name d = WhatsApp.name r)
                    recipients (details results))
        \/ (fst (WhatsApp.isWhatsAppConfigured env w) = Returned false
            /\ sent results = 0
            /\ failed results = length recipients
            /\ details results = [])).
Proof.
  intro Hcb.
  destruct (isWhatsAppConfigured_runs env w) as (config & pre & _ & Hrun & _).
  destruct (WhatsApp.complete config) eqn:Hcomplete.
  - assert (Hcfg : fst (WhatsApp.isWhatsAppConfigured env w) = Returned true)
      by (rewrite Hrun; reflexivity).
    rewrite sendBulkWhatsAppWith_complete by assumption.
    destruct (@dispatch_accounting _ _ WhatsApp.phone WhatsApp.name
                (fun r => send (WhatsApp.message_for campaign r))
                WhatsApp.sentDetail WhatsApp.failedDetail 500 onProgress
                (length recipients) Hcb recipients
                {| sent := 0; failed := 0; errors := []; details := [] |}
                (snd (WhatsApp.getWhatsAppConfig env w)))
      as (results & w' & Hdisp & Hcount & ds & Hds & Hrec).
    cbn in Hcount, Hds. subst ds.
    exists results, w'. split; [assumption|]. split; [assumption|].
    left. split; [assumption|].
    split; [symmetry; eapply Forall2_length; eassumption|].
    eapply Forall2_impl; [|eassumption]. apply recorded_whatsapp.
  - assert (Hcfg : fst (WhatsApp.isWhatsAppConfigured env w) = Returned false)
      by (rewrite Hrun; reflexivity).
    rewrite sendBulkWhatsAppWith_incomplete by assumption.
    eexists _, _. split; [reflexivity|]. cbn. split; [reflexivity|].
    right. repeat split; assumption.
Qed.

(** The ledger of an e-mail bulk send, whatever the single send does. *)
Lemma sendBulkEmailsWith_ledger (env : Env)
    (send : Email.Params -> M SendResult)
    (recipients : list Email.Recipient) (campaign : Campaign)
    (onProgress : option Callback) (w : World) :
  callback_returns onProgress ->
  exists results w',
    Email.sendBulkEmailsWith env send recipients campaign onProgress w
      = (Returned results, w')
    /\ sent results + failed results = length recipients
    /\ ((fst (Email.prepare env w) = Returned true
         /\ length (details results) = length recipients
         /\ Forall2 (fun r d => Email.d_email d = Email.email r
                                /\ Email.d_name d = Email.name r)
                    recipients (details results))
        \/ (fst (Email.prepare env w) = Returned false
            /\ sent results = 0
            /\ failed results = length recipients
            /\ details results = [])).
Proof.
  intro Hcb.
  destruct (prepare_returns env w) as ([|] & Hcfg).
  - rewrite sendBulkEmailsWith_complete by assumption.
    destruct (@dispatch_accounting _ _ Email.email Email.name
                (fun r => send (Email.message_for campaign r))
                Email.sentDetail Email.failedDetail 200 onProgress
                (length recipients) Hcb recipients
                {| sent := 0; failed := 0; errors := []; details := [] |}
                (snd (Email.prepare env w)))
      as (results & w' & Hdisp & Hcount & ds & Hds & Hrec).
    cbn in Hcount, Hds. subst ds.
    exists results, w'. split; [assumption|]. split; [assumption|].
    left. split; [assumption|].
    split; [symmetry; eapply Forall2_length; eassumption|].
    eapply Forall2_impl; [|eassumption]. apply recorded_email.
  - rewrite sendBulkEmailsWith_incomplete by assumption.
    eexists _, _. split; [reflexivity|]. cbn. split; [reflexivity|].
    right. repeat split; assumption.
Qed.

(** ** The bulk dispatch engine *)

(** C1, as the code has it.  When the progress callback, if any, returns
    normally, [sendBulkWhatsApp] and [sendBulkEmails] return a result with
    [sent + failed] equal to the number of recipients.  With a complete
    configuration [details] has one entry for each recipient, in the order
    of the recipients, carrying that recipient's address and name; with an
    incomplete one [sent] is 0, [failed] is the number of recipients and
    [details] is empty. *)
Theorem bulk_results_account_for_recipients (env : Env)
    (contacts : list WhatsApp.Recipient) (subscribers : list Email.Recipient)
    (campaign : Campaign) (onProgress : option Callback) (w : World)
    (Hcb : callback_returns onProgress) :
  (exists results w',
     WhatsApp.sendBulkWhatsApp env contacts campaign onProgress w
       = (Returned results, w')
     /\ sent results + failed results = length contacts
     /\ ((fst (WhatsApp.isWhatsAppConfigured env w) = Returned true
          /\ length (details results) = length contacts
          /\ Forall2 (fun r d => WhatsApp.d_phone d = WhatsApp.phone r
                                 /\ WhatsApp.d_name d = WhatsApp.name r)
                     contacts (details results))
         \/ (fst (WhatsApp.isWhatsAppConfigured env w) = Returned false
             /\ sent results = 0
             /\ failed results = length contacts
             /\ details results = [])))
  /\ (exists results w',
       Email.sendBulkEmails env subscribers campaign onProgress w
         = (Returned results, w')
       /\ sent results + failed results = length subscribers
       /\ ((fst (Email.prepare env w) = Returned true
            /\ length (details results) = length subscribers
            /\ Forall2 (fun r d => Email.d_email d = Email.email r
                                   /\ Email.d_name d = Email.name r)
                       subscribers (details results))
           \/ (fst (Email.prepare env w) = Returned false
               /\ sent results = 0
               /\ failed results = length subscribers
               /\ details results = []))).
Proof.
  split.
  - apply sendBulkWhatsAppWith_ledger. assumption.
  - apply sendBulkEmailsWith_ledger. assumption.
Qed.

Lemma bulk_results_account_for_recipients_witness :
  (exists results w',
     WhatsApp.sendBulkWhatsApp Sample.configured [Sample.maria; Sample.short]
       Sample.campaign (Some Sample.silent) Sample.email_ready
       = (Returned results, w')
     /\ sent results + failed results = 2)
  /\ (exists results w',
       Email.sendBulkEmails Sample.configured [Sample.ana; Sample.ben]
         Sample.campaign (Some Sample.silent) Sample.email_ready
         = (Returned results, w')
       /\ sent results + failed results = 2).
Proof.
  destruct (@bulk_results_account_for_recipients Sample.configured
              [Sample.maria; Sample.short] [Sample.ana; Sample.ben]
              Sample.campaign (Some Sample.silent) Sample.email_ready)
    as [(r1 & w1 & H1 & C1 & _) (r2 & w2 & H2 & C2 & _)].
  - intros cb Heq h current total phase name.
    injection Heq as <-. reflexivity.
  - split; [exists r1, w1|exists r2, w2]; split; assumption.
Defined.

(** C1, as stated, fails when the configuration is incomplete: the result
    counts the recipient as failed and [details] is empty. *)
Lemma sendBulkWhatsApp_unconfigured_details_empty :
  fst (WhatsApp.sendBulkWhatsApp Sample.unconfigured [Sample.maria]
         Sample.campaign None Sample.fresh)
  = Returned {| sent := 0; failed := 1;
                errors := [WhatsApp.NOT_CONFIGURED]; details := [] |}
  /\ ~ (exists results,
          fst (WhatsApp.sendBulkWhatsApp Sample.unconfigured [Sample.maria]
                 Sample.campaign None Sample.fresh) = Returned results
          /\ length (details results) = length [Sample.maria]).
Proof.
  split; [reflexivity|].
  intros (results & Hrun & Hlen). vm_compute in Hrun.
  injection Hrun as <-. discriminate Hlen.
Qed.










(** ** The scenario of the specification

    Three recipients; Twilio accepts the first and the third message and
    rejects the second. *)
Example three_recipients_second_rejected :
  let run :=
    WhatsApp.sendBulkWhatsApp Sample.flaky
      [Sample.maria; Sample.john; Sample.maria] Sample.campaign
      (Some Sample.silent) Sample.fresh in
  (exists results,
     fst run = Returned results
     /\ sent results = 2
     /\ failed results = 1
     /\ errors results = [js "+14155551234: Invalid 'To' number"]
     /\ map WhatsApp.d_status (details results)
        = [js "sent"; js "failed"; js "sent"])
  /\ filter is_progress (trace (snd run))
     = [ EvProgress 1 3 (js "sending") (Some (js "Maria Lopez"));
         EvProgress 2 3 (js "sending") (Some (js "+14155551234"));
         EvProgress 3 3 (js "sending") (Some (js "Maria Lopez"));
         EvProgress 3 3 (js "completed") None ]
  /\ filter is_sleep (trace (snd run)) = [EvSleep 500; EvSleep 500]
  /\ length (filter is_fetch (trace (snd run))) = 3.
Proof.
  cbv zeta. split; [eexists; split; [vm_compute; reflexivity|]|];
    repeat split; reflexivity.
Qed.

(** * Further properties *)

(** ** Phone numbers *)

Lemma startsWith_nil (s : JsStr) : startsWith s [] = true.
Proof. destruct s; reflexivity. Qed.

(** A national number written with its leading zero and the same number
    written with the Swiss code [+41] normalise to the same E.164 string,
    whatever separators they hold. *)
Theorem formatPhoneE164_leading_zero_is_swiss (rest : JsStr) :
  formatPhoneE164 (js "0" ++ rest) = js "+41" ++ filter is_phone_char rest
  /\ formatPhoneE164 (js "+41" ++ rest) = js "+41" ++ filter is_phone_char rest
  /\ formatPhoneE164 (js "0" ++ rest) = formatPhoneE164 (js "+41" ++ rest).
Proof.
  assert (H0 : formatPhoneE164 (js "0" ++ rest)
               = js "+41" ++ filter is_phone_char rest).
  { unfold formatPhoneE164. cbn. rewrite ?startsWith_nil. reflexivity. }
  assert (H41 : formatPhoneE164 (js "+41" ++ rest)
                = js "+41" ++ filter is_phone_char rest).
  { unfold formatPhoneE164. cbn. rewrite ?startsWith_nil. reflexivity. }
  repeat split; congruence.
Qed.

(** Only the digits and the [+] of the input matter: an input that holds
    one of them normalises as the input stripped of everything else, and a
    non-empty input that holds none normalises to the bare Swiss code. *)
Theorem formatPhoneE164_ignores_separators (p : JsStr) :
  (filter is_phone_char p <> [] ->
   formatPhoneE164 p = formatPhoneE164 (filter is_phone_char p))
  /\ (p <> [] -> filter is_phone_char p = [] ->
      formatPhoneE164 p = js "+41").
Proof.
  split.
  - intro Hkept. unfold formatPhoneE164.
    rewrite (filter_fixed _ _ (forallb_filter is_phone_char p)).
    destruct p as [|c p]; [reflexivity|].
    destruct (filter is_phone_char (c :: p)); [congruence|reflexivity].
  - intros Hp Hnone. unfold formatPhoneE164. rewrite Hnone.
    destruct p; [congruence|reflexivity].
Qed.

Lemma formatPhoneE164_ignores_separators_witness :
  formatPhoneE164 (js "+41 (79) 123-45-67") = formatPhoneE164 (js "+41791234567")
  /\ formatPhoneE164 (js "n/a") = js "+41".
Proof.
  destruct (formatPhoneE164_ignores_separators (js "+41 (79) 123-45-67"))
    as [Hkept _].
  destruct (formatPhoneE164_ignores_separators (js "n/a")) as [_ Hnone].
  split.
  - apply Hkept. vm_compute. discriminate.
  - apply Hnone; [discriminate|reflexivity].
Defined.

(** ** Personalisation *)

Lemma canonicalize_brace (c : N) :
  (c =? 123)%N = false -> (canonicalize c =? canonicalize 123)%N = false.
Proof.
  intro Hc. apply N.eqb_neq in Hc. apply N.eqb_neq.
  change (canonicalize 123) with 123%N. unfold canonicalize.
  destruct ((97 <=? c) && (c <=? 122))%N eqn:Hlow.
  - apply andb_true_iff in Hlow as [H1 H2].
    apply N.leb_le in H1, H2. lia.
  - destruct ((224 <=? c) && (c <=? 254) && negb (c =? 247))%N eqn:Hhigh;
      [|assumption].
    apply andb_true_iff in Hhigh as [Hhigh _].
    apply andb_true_iff in Hhigh as [H1 H2].
    apply N.leb_le in H1, H2. lia.
Qed.

Lemma replace_scan_no_brace (replacement s : JsStr) :
  forallb (fun c => negb (c =? 123)%N) s = true ->
  forall before, replace_scan PRENOM replacement 0 before s = s.
Proof.
  induction s as [|c rest IH]; intros Hs before; [reflexivity|].
  cbn [forallb] in Hs. apply andb_true_iff in Hs as [Hc Hrest].
  apply negb_true_iff in Hc.
  cbn [replace_scan]. change PRENOM with (123%N :: tl PRENOM).
  cbn [match_at]. rewrite (canonicalize_brace _ Hc). cbn [andb].
  rewrite IH by assumption. reflexivity.
Qed.

(** A template without an opening brace is sent as it is, whatever the
    recipient's name, substitution patterns included. *)
Theorem personalize_without_placeholder (template : JsStr)
    (contactName : option JsStr)
    (Hplain : forallb (fun c => negb (c =? 123)%N) template = true) :
  personalize template contactName = template.
Proof.
  unfold personalize, replace_prenom.
  destruct contactName as [n|]; [|reflexivity].
  destruct (truthy n); [|reflexivity].
  apply replace_scan_no_brace. assumption.
Qed.

Lemma personalize_without_placeholder_witness :
  personalize (js "Cours ce soir a 19h") (Some (js "$& Lopez"))
  = js "Cours ce soir a 19h".
Proof.
  apply (@personalize_without_placeholder (js "Cours ce soir a 19h")
           (Some (js "$& Lopez"))).
  reflexivity.
Defined.

(** ** Invariants of the dispatch loop *)

Lemma report_pause (onProgress : option Callback) :
  callback_returns onProgress ->
  forall current total phase name w,
  exists w',
    report onProgress current total phase name w = (Returned tt, w')
    /\ cachedConfig w' = cachedConfig w
    /\ exists evs, trace w' = trace w ++ evs /\ forallb is_pause evs = true.
Proof.
  intros Hcb current total phase name w.
  destruct onProgress as [cb|]; simpl.
  - unfold perform. rewrite (Hcb cb eq_refl).
    eexists. split; [reflexivity|]. split; [reflexivity|].
    eexists. split; reflexivity.
  - exists w. split; [reflexivity|]. split; [reflexivity|].
    exists []. split; [symmetry; apply app_nil_r|reflexivity].
Qed.

Section BulkLoopInvariant.

Variables R D : Type.
Variable address : R -> JsStr.
Variable name_of : R -> option JsStr.
Variable send : R -> M SendResult.
Variable sentDetail : R -> SendResult -> D.
Variable failedDetail : R -> option JsStr -> D.
Variable delay : nat.
Variable onProgress : option Callback.
Variable total : nat.

Hypothesis Hcb : callback_returns onProgress.

Local Abbreviation attempt_ := (attempt address send sentDetail failedDetail).
Local Abbreviation iteration_ :=
  (iteration address name_of send sentDetail failedDetail delay onProgress total).
Local Abbreviation loop_ :=
  (loop address name_of send sentDetail failedDetail delay onProgress total).
Local Abbreviation dispatch_ :=
  (dispatch address name_of send sentDetail failedDetail delay onProgress total).
Local Abbreviation recorded_ :=
  (outcome_recorded address sentDetail failedDetail).

(** The [try]/[catch] of an iteration always completes, in the world the
    send left. *)
Lemma attempt_outcome (r : R) (results : Results D) (w : World) :
  attempt_ r results w
  = (Returned (recorded_ r (fst (send r w)) results), snd (send r w)).
Proof.
  unfold attempt, try_catch, bind, ret, outcome_recorded.
  destruct (send r w) as [[result|e] w1]; cbn;
    [destruct (success result)|]; reflexivity.
Qed.

(** A property of the ledger and the world that progress reports and
    delays keep, and that every iteration's send keeps. *)
Variable Inv : Results D -> World -> Prop.

Hypothesis Hpause :
  forall results w w',
    Inv results w ->
    cachedConfig w' = cachedConfig w ->
    (exists evs, trace w' = trace w ++ evs /\ forallb is_pause evs = true) ->
    Inv results w'.

Hypothesis Hsend :
  forall r results w,
    Inv results w ->
    Inv (recorded_ r (fst (send r w)) results) (snd (send r w)).

Lemma iteration_invariant (i : nat) (r : R) (results : Results D) (w : World) :
  Inv results w ->
  exists results' w',
    iteration_ i r results w = (Returned results', w') /\ Inv results' w'.
Proof.
  intro Hinv.
  destruct (report_pause Hcb (i + 1) total (js "sending")
              (Some (or_else (name_of r) (address r))) w)
    as (w1 & Hrep & Hcc & Hevs).
  pose proof (@Hpause results w w1 Hinv Hcc Hevs) as Hinv1.
  pose proof (@Hsend r results w1 Hinv1) as Hinv2.
  unfold iteration, bind. rewrite Hrep, attempt_outcome.
  destruct (i <? total - 1); cbn.
  - eexists _, _. split; [reflexivity|].
    eapply Hpause; [exact Hinv2|reflexivity|].
    eexists. split; reflexivity.
  - eexists _, _. split; [reflexivity|]. exact Hinv2.
Qed.

Lemma loop_invariant (rest : list R) :
  forall i results w,
    Inv results w ->
    exists results' w',
      loop_ i rest results w = (Returned results', w') /\ Inv results' w'.
Proof.
  induction rest as [|r rest IH]; intros i results w Hinv.
  - exists results, w. split; [reflexivity|assumption].
  - destruct (iteration_invariant i r Hinv) as (r1 & w1 & Hit & Hinv1).
    destruct (IH (i + 1) r1 w1 Hinv1) as (r2 & w2 & Hloop & Hinv2).
    exists r2, w2. cbn [loop]. unfold bind at 1. rewrite Hit, Hloop.
    split; [reflexivity|assumption].
Qed.

Lemma dispatch_invariant (recipients : list R) (results : Results D) (w : World) :
  Inv results w ->
  exists results' w',
    dispatch_ recipients results w = (Returned results', w') /\ Inv results' w'.
Proof.
  intro Hinv.
  destruct (loop_invariant recipients 0 Hinv) as (r1 & w1 & Hloop & Hinv1).
  destruct (report_pause Hcb total total (js "completed") None w1)
    as (w2 & Hrep & Hcc & Hevs).
  exists r1, w2. unfold dispatch, bind. rewrite Hloop, Hrep.
  split; [reflexivity|]. exact (@Hpause r1 w1 w2 Hinv1 Hcc Hevs).
Qed.

End BulkLoopInvariant.

(** ** The ledger *)

Section Ledger.

Variables R D : Type.
Variable address : R -> JsStr.
Variable sentDetail : R -> SendResult -> D.
Variable failedDetail : R -> option JsStr -> D.
Variable is_failed : D -> bool.
Variable error_line : D -> JsStr.

Hypothesis Hsent : forall r result, is_failed (sentDetail r result) = false.
Hypothesis Hfailed : forall r reason, is_failed (failedDetail r reason) = true.
Hypothesis Hline :
  forall r reason,
    error_line (failedDetail r reason) = address r ++ js ": " ++ toString reason.

Local Abbreviation consistent_ := (consistent is_failed error_line).

Lemma consistent_recorded (r : R) (o : Outcome SendResult) (results : Results D) :
  consistent_ results ->
  consistent_ (outcome_recorded address sentDetail failedDetail r o results).
Proof.
  intros (Herr & Hfail & Hsentn). unfold consistent, outcome_recorded.
  destruct o as [result|e]; [destruct (success result)|];
    cbn [success_recorded failure_recorded errors failed sent details];
    rewrite !filter_app; cbn [filter];
    rewrite ?Hsent, ?Hfailed; cbn [negb];
    rewrite ?map_app, ?length_app, ?app_nil_r; cbn [map length];
    rewrite ?Hline, ?Nat.add_0_r; repeat split;
    first [assumption | lia | rewrite Herr; reflexivity].
Qed.

End Ledger.

(** In a bulk run that passes its configuration check, and whose callback,
    if any, returns normally, the ledger returned is consistent: [errors]
    holds one line [address: reason] for each failed detail, in their
    order, [failed] counts the failed details and [sent] the others. *)
Theorem bulk_ledger_consistent (env : Env)
    (contacts : list WhatsApp.Recipient) (subscribers : list Email.Recipient)
    (campaign : Campaign) (onProgress : option Callback) (w : World)
    (Hcb : callback_returns onProgress) :
  (fst (WhatsApp.isWhatsAppConfigured env w) = Returned true ->
   exists results w',
     WhatsApp.sendBulkWhatsApp env contacts campaign onProgress w
       = (Returned results, w')
     /\ consistent WhatsApp.is_failed WhatsApp.error_line results
     /\ length (errors results) = failed results)
  /\ (fst (Email.prepare env w) = Returned true ->
      exists results w',
        Email.sendBulkEmails env subscribers campaign onProgress w
          = (Returned results, w')
        /\ consistent Email.is_failed Email.error_line results
        /\ length (errors results) = failed results).
Proof.
  split; intro Hcfg.
  - unfold WhatsApp.sendBulkWhatsApp.
    rewrite sendBulkWhatsAppWith_complete by assumption.
    destruct (@dispatch_invariant _ _ WhatsApp.phone WhatsApp.name
                (fun r => WhatsApp.sendWhatsAppMessage env
                            (WhatsApp.message_for campaign r))
                WhatsApp.sentDetail WhatsApp.failedDetail 500 onProgress
                (length contacts) Hcb
                (fun results _ =>
                   consistent WhatsApp.is_failed WhatsApp.error_line results)
                (fun results w w' H _ _ => H)
                (fun r results w H =>
                   @consistent_recorded _ _ WhatsApp.phone WhatsApp.sentDetail
                     WhatsApp.failedDetail WhatsApp.is_failed
                     WhatsApp.error_line (fun _ _ => eq_refl)
                     (fun _ _ => eq_refl) (fun _ _ => eq_refl) r _ results H)
                contacts
                {| sent := 0; failed := 0; errors := []; details := [] |}
                (snd (WhatsApp.getWhatsAppConfig env w)))
      as (results & w' & Hrun & Hcons).
    + repeat split.
    + exists results, w'. split; [exact Hrun|]. split; [exact Hcons|].
      destruct Hcons as (Herr & Hfail & _).
      rewrite Herr, length_map. symmetry. exact Hfail.
  - unfold Email.sendBulkEmails.
    rewrite sendBulkEmailsWith_complete by assumption.
    destruct (@dispatch_invariant _ _ Email.email Email.name
                (fun r => Email.sendEmail env (Email.message_for campaign r))
                Email.sentDetail Email.failedDetail 200 onProgress
                (length subscribers) Hcb
                (fun results _ =>
                   consistent Email.is_failed Email.error_line results)
                (fun results w w' H _ _ => H)
                (fun r results w H =>
                   @consistent_recorded _ _ Email.email Email.sentDetail
                     Email.failedDetail Email.is_failed
                     Email.error_line (fun _ _ => eq_refl)
                     (fun _ _ => eq_refl) (fun _ _ => eq_refl) r _ results H)
                subscribers
                {| sent := 0; failed := 0; errors := []; details := [] |}
                (snd (Email.prepare env w)))
      as (results & w' & Hrun & Hcons).
    + repeat split.
    + exists results, w'. split; [exact Hrun|]. split; [exact Hcons|].
      destruct Hcons as (Herr & Hfail & _).
      rewrite Herr, length_map. symmetry. exact Hfail.
Qed.

Lemma bulk_ledger_consistent_witness :
  (exists results w',
     WhatsApp.sendBulkWhatsApp Sample.flaky
       [Sample.maria; Sample.john; Sample.short] Sample.campaign None
       Sample.email_ready
     = (Returned results, w')
     /\ length (errors results) = failed results)
  /\ (exists results w',
       Email.sendBulkEmails Sample.flaky [Sample.ana; Sample.ben]
         Sample.campaign None Sample.email_ready
       = (Returned results, w')
       /\ length (errors results) = failed results).
Proof.
  destruct (@bulk_ledger_consistent Sample.flaky
              [Sample.maria; Sample.john; Sample.short]
              [Sample.ana; Sample.ben] Sample.campaign None Sample.email_ready)
    as [Hwa Hem].
  - intros cb Heq. discriminate Heq.
  - split.
    + destruct (Hwa eq_refl) as (r & w' & Hrun & _ & Hlen).
      exists r, w'. split; assumption.
    + destruct (Hem eq_refl) as (r & w' & Hrun & _ & Hlen).
      exists r, w'. split; assumption.
Defined.

(** ** whatsappService.js: the single send *)

Lemma bind_returned (A B : Type) (m : M A) (k : A -> M B) (w w1 : World) (a : A) :
  m w = (Returned a, w1) -> bind m k w = k a w1.
Proof. intro H. unfold bind. rewrite H. reflexivity. Qed.

Lemma getWhatsAppConfig_keeps_cache (env : Env) (w : World) :
  cachedConfig (snd (WhatsApp.getWhatsAppConfig env w)) = cachedConfig w.
Proof.
  unfold WhatsApp.getWhatsAppConfig, bind, try_catch, perform, settle, ret,
    console_error, emit.
  cbv beta.
  destruct (localStorage_getItem env (trace w) WhatsApp.WHATSAPP_CONFIG_KEY)
    as [[text|]|e]; cbn; try reflexivity.
  destruct (truthy text); cbn; try reflexivity.
  destruct (JSON_parse env text) as [config|e]; cbn; try reflexivity.
  destruct (WhatsApp.complete config); reflexivity.
Qed.

Lemma incomplete_guard (config : JsObj) :
  negb (truthy_opt (get config (js "accountSid")))
  || negb (truthy_opt (get config (js "authToken")))
  || negb (truthy_opt (get config (js "fromNumber")))
  = negb (WhatsApp.complete config).
Proof.
  unfold WhatsApp.complete.
  destruct (truthy_opt (get config (js "accountSid")));
    destruct (truthy_opt (get config (js "authToken")));
    destruct (truthy_opt (get config (js "fromNumber"))); reflexivity.
Qed.

Ltac fetch_leaf :=
  cbn; rewrite ?filter_app, ?length_app; cbn;
  repeat split; try lia; try assumption; try discriminate;
  try (eexists; reflexivity);
  try (intros ? Hr Hs;
       first [discriminate Hr | injection Hr as <-; discriminate Hs]).

(** Every case of a single send: what it does to the cache, how many
    requests it makes, and when it returns. *)
Lemma sendWhatsAppMessage_fetches (env : Env) (params : WhatsApp.Params)
    (w : World) :
  let run := WhatsApp.sendWhatsAppMessage env params w in
  let before := length (filter is_fetch (trace w)) in
  let after := length (filter is_fetch (trace (snd run))) in
  cachedConfig (snd run) = cachedConfig w
  /\ before <= after <= before + 1
  /\ (forall result,
        fst run = Returned result -> success result = true ->
        after = before + 1)
  /\ (fst (WhatsApp.isWhatsAppConfigured env w) = Returned true ->
      exists result, fst run = Returned result).
Proof.
  destruct (isWhatsAppConfigured_runs env w)
    as (config & pre & Hget & Hcfg & Htr & Hst).
  pose proof (storage_no_fetch _ Hst) as Hnf.
  pose proof (getWhatsAppConfig_keeps_cache env w) as Hcc.
  cbv zeta. rewrite Hcfg. cbn [fst].
  unfold WhatsApp.sendWhatsAppMessage.
  rewrite !(@bind_returned _ _ _ _ _ _ _ Hget), incomplete_guard.
  set (w1 := snd (WhatsApp.getWhatsAppConfig env w)) in *.
  assert (Hf1 : length (filter is_fetch (trace w1))
                = length (filter is_fetch (trace w))).
  { rewrite Htr, filter_app, Hnf, app_nil_r. reflexivity. }
  clearbody w1. clear Hget Htr Hcfg.
  destruct (WhatsApp.complete config); [|fetch_leaf].
  cbv zeta. cbn [negb].
  destruct (negb (truthy (formatPhoneE164 (WhatsApp.to params)))
            || (length (formatPhoneE164 (WhatsApp.to params)) <? 10));
    [fetch_leaf|].
  unfold try_catch, bind, settle, perform, console_error, emit, ret.
  cbv beta.
  destruct (btoa env _) as [credentials|e]; [|fetch_leaf].
  match goal with
  | |- context [fetch env (trace w1) ?r] => generalize r; intro request
  end.
  destruct (fetch env (trace w1) request) as [resp|e]; [|fetch_leaf].
  destruct (json resp) as [data|e]; [|fetch_leaf].
  destruct (ok resp); fetch_leaf.
Qed.

(** With an incomplete configuration [sendWhatsAppMessage], and so
    [testWhatsAppConfig], does not return a failure: it throws, after the
    storage read alone. *)
Theorem sendWhatsAppMessage_not_configured_throws (env : Env)
    (params : WhatsApp.Params) (w : World) (config : JsObj)
    (Hconfig : fst (WhatsApp.getWhatsAppConfig env w) = Returned config)
    (Hmissing : truthy_opt (get config (js "accountSid")) = false
                \/ truthy_opt (get config (js "authToken")) = false
                \/ truthy_opt (get config (js "fromNumber")) = false) :
  let w1 := snd (WhatsApp.getWhatsAppConfig env w) in
  WhatsApp.sendWhatsAppMessage env params w
    = (Thrown (Error WhatsApp.NOT_CONFIGURED_LONG), w1)
  /\ (forall testPhone,
        WhatsApp.testWhatsAppConfig env testPhone w
        = (Thrown (Error WhatsApp.NOT_CONFIGURED_LONG), w1))
  /\ exists evs,
       trace w1 = trace w ++ evs
       /\ forallb is_storage evs = true
       /\ filter is_fetch evs = [].
Proof.
  intro w1.
  destruct (isWhatsAppConfigured_runs env w)
    as (config' & evs & Hget & _ & Htr & Hall).
  rewrite Hget in Hconfig. cbn in Hconfig. injection Hconfig as ->.
  apply incomplete_fields in Hmissing.
  assert (Hthrow : forall params',
            WhatsApp.sendWhatsAppMessage env params' w
            = (Thrown (Error WhatsApp.NOT_CONFIGURED_LONG), w1)).
  { intro params'. unfold WhatsApp.sendWhatsAppMessage.
    rewrite (@bind_returned _ _ _ _ _ _ _ Hget), incomplete_guard, Hmissing.
    reflexivity. }
  split; [apply Hthrow|]. split; [intro testPhone; apply Hthrow|].
  exists evs. repeat split; try assumption. apply storage_no_fetch. assumption.
Qed.

Lemma sendWhatsAppMessage_not_configured_throws_witness :
  fst (WhatsApp.testWhatsAppConfig Sample.unconfigured (js "0791234567")
         Sample.fresh)
  = Thrown (Error WhatsApp.NOT_CONFIGURED_LONG).
Proof.
  destruct (@sendWhatsAppMessage_not_configured_throws Sample.unconfigured
              (WhatsApp.message_for Sample.campaign Sample.maria) Sample.fresh
              (WhatsApp.DEFAULT_CONFIG Sample.unconfigured)
              eq_refl (or_introl eq_refl))
    as (_ & Htest & _).
  rewrite Htest. reflexivity.
Defined.

(** With a complete configuration [sendWhatsAppMessage] never throws: it
    returns a result after at most one request, and a result with
    [success: true] after exactly one. *)
Theorem sendWhatsAppMessage_configured_returns (env : Env)
    (params : WhatsApp.Params) (w : World)
    (Hcfg : fst (WhatsApp.isWhatsAppConfigured env w) = Returned true) :
  exists result w',
    WhatsApp.sendWhatsAppMessage env params w = (Returned result, w')
    /\ length (filter is_fetch (trace w'))
       <= length (filter is_fetch (trace w)) + 1
    /\ length (filter is_fetch (trace w))
       <= length (filter is_fetch (trace w'))
    /\ (success result = true ->
        length (filter is_fetch (trace w'))
        = length (filter is_fetch (trace w)) + 1).
Proof.
  destruct (sendWhatsAppMessage_fetches env params w)
    as (_ & Hbound & Hsuccess & Hret).
  destruct (Hret Hcfg) as (result & Hresult).
  destruct (WhatsApp.sendWhatsAppMessage env params w) as [o w'].
  cbn [fst snd] in *. subst o.
  exists result, w'. repeat split; try lia.
  intro Hs. apply (Hsuccess result eq_refl Hs).
Qed.

Lemma sendWhatsAppMessage_configured_returns_witness :
  exists result w',
    WhatsApp.sendWhatsAppMessage Sample.configured
      (WhatsApp.message_for Sample.campaign Sample.maria) Sample.fresh
    = (Returned result, w')
    /\ length (filter is_fetch (trace w')) <= 1.
Proof.
  destruct (@sendWhatsAppMessage_configured_returns Sample.configured
              (WhatsApp.message_for Sample.campaign Sample.maria) Sample.fresh
              eq_refl)
    as (result & w' & Hrun & Hle & _).
  exists result, w'. split; [exact Hrun|exact Hle].
Defined.

Lemma valid_number_guard (s : JsStr) :
  10 <= length s -> negb (truthy s) || (length s <? 10) = false.
Proof.
  intro H. destruct s as [|c s]; [cbn in H; lia|].
  cbn [truthy negb orb]. apply Nat.ltb_ge. exact H.
Qed.

(** A string without surrogate code units is its own USVString. *)
Lemma toUSVString_plain (s : JsStr) :
  forallb (fun c => negb (is_lead_surrogate c || is_trail_surrogate c)) s = true ->
  toUSVString s = s.
Proof.
  induction s as [|c rest IH]; cbn [forallb toUSVString]; intro H;
    [reflexivity|].
  apply andb_true_iff in H as [Hc Hrest].
  apply negb_true_iff, orb_false_iff in Hc as [Hlead Htrail].
  rewrite Hlead, Htrail, IH by assumption. reflexivity.
Qed.

Lemma phone_chars_plain (s : JsStr) :
  forallb is_phone_char s = true ->
  forallb (fun c => negb (is_lead_surrogate c || is_trail_surrogate c)) s = true.
Proof.
  induction s as [|c rest IH]; cbn [forallb]; intro H; [reflexivity|].
  apply andb_true_iff in H as [Hc Hrest]. rewrite IH by assumption.
  rewrite andb_true_r. apply negb_true_iff.
  unfold is_phone_char, is_digit, plus_sign in Hc.
  unfold is_lead_surrogate, is_trail_surrogate.
  assert (Hsmall : (c <= 57)%N).
  { apply orb_true_iff in Hc as [Hd|Hp].
    - apply andb_true_iff in Hd as [_ Hd]. apply N.leb_le in Hd. exact Hd.
    - apply N.eqb_eq in Hp. subst c. discriminate. }
  apply orb_false_iff. split; apply andb_false_iff; left;
    apply N.leb_gt; lia.
Qed.

(** The [whatsapp:] address of a normalised number holds no surrogate. *)
Lemma toUSVString_whatsapp_number (p : JsStr) :
  toUSVString (js "whatsapp:" ++ formatPhoneE164 p)
  = js "whatsapp:" ++ formatPhoneE164 p.
Proof.
  apply toUSVString_plain. rewrite forallb_app. apply andb_true_iff.
  split; [reflexivity|]. apply phone_chars_plain.
  destruct p as [|c p]; [reflexivity|].
  apply formatPhoneE164_shape. discriminate.
Qed.

(** Surrogate pairs are kept, unpaired surrogates become U+FFFD. *)
Example toUSVString_examples :
  toUSVString ([55356; 57225]%N ++ js " ok") = [55356; 57225]%N ++ js " ok"
  /\ toUSVString (js "Hi " ++ [55356]%N) = js "Hi " ++ [65533]%N
  /\ toUSVString ([55356; 65]%N) = [65533; 65]%N
  /\ toUSVString ([57225; 65]%N) = [65533; 65]%N
  /\ toUSVString ([55356; 55356; 57225]%N) = [65533; 55356; 57225]%N.
Proof. repeat split. Qed.

(** With a complete configuration, a number of at least 10 code units once
    normalised and credentials that [btoa] encodes, [sendWhatsAppMessage]
    sends exactly one request, to the Messages resource of the account.
    Its form data hold what [URLSearchParams.append] makes of the values:
    [To] is [whatsapp:] and the normalised number, [Body] is the
    personalised message as a USVString (the message itself when it holds
    no surrogate code unit), and there is a [MediaUrl] field, the media URL
    as a USVString, exactly when the media URL is non-empty.  The result
    has [success: true] exactly when the request resolves with an [ok]
    response whose body parses. *)
Theorem sendWhatsAppMessage_single_request (env : Env)
    (params : WhatsApp.Params) (w : World) (config : JsObj)
    (credentials : JsStr)
    (Hconfig : fst (WhatsApp.getWhatsAppConfig env w) = Returned config)
    (Hcomplete : WhatsApp.complete config = true)
    (Hvalid : 10 <= length (formatPhoneE164 (WhatsApp.to params)))
    (Hbtoa : btoa env (WhatsApp.credentials_text config) = Returned credentials) :
  let w1 := snd (WhatsApp.getWhatsAppConfig env w) in
  let request := WhatsApp.request_for config params credentials in
  let personalized :=
    personalize (WhatsApp.message params) (WhatsApp.contactName params) in
  exists result w' logs,
    WhatsApp.sendWhatsAppMessage env params w = (Returned result, w')
    /\ trace w' = trace w1 ++ EvFetch request :: logs
    /\ forallb is_storage logs = true
    /\ (success result = true <->
        exists resp data,
          fetch env (trace w1) request = Returned resp
          /\ ok resp = true /\ json resp = Returned data)
    /\ url request
       = js "https://api.twilio.com/2010-04-01/Accounts/"
         ++ toString (get config (js "accountSid")) ++ js "/Messages.json"
    /\ method request = js "POST"
    /\ get (body request) (js "To")
       = Some (js "whatsapp:" ++ formatPhoneE164 (WhatsApp.to params))
    /\ get (body request) (js "Body") = Some (toUSVString personalized)
    /\ (forallb (fun c => negb (is_lead_surrogate c || is_trail_surrogate c))
                personalized = true ->
        get (body request) (js "Body") = Some personalized)
    /\ get (body request) (js "MediaUrl")
       = (if truthy_opt (WhatsApp.mediaUrl params)
          then Some (toUSVString (toString (WhatsApp.mediaUrl params)))
          else None).
Proof.
  intros w1 request personalized.
  destruct (isWhatsAppConfigured_runs env w)
    as (config' & pre & Hget & _ & _ & _).
  rewrite Hget in Hconfig. cbn in Hconfig. injection Hconfig as ->.
  fold w1 in Hget.
  assert (Hfields :
    url request
      = js "https://api.twilio.com/2010-04-01/Accounts/"
        ++ toString (get config (js "accountSid")) ++ js "/Messages.json"
    /\ method request = js "POST"
    /\ get (body request) (js "To")
       = Some (js "whatsapp:" ++ formatPhoneE164 (WhatsApp.to params))
    /\ get (body request) (js "Body") = Some (toUSVString personalized)
    /\ (forallb (fun c => negb (is_lead_surrogate c || is_trail_surrogate c))
                personalized = true ->
        get (body request) (js "Body") = Some personalized)
    /\ get (body request) (js "MediaUrl")
       = (if truthy_opt (WhatsApp.mediaUrl params)
          then Some (toUSVString (toString (WhatsApp.mediaUrl params)))
          else None)).
  { assert (Hbody : get (body request) (js "Body")
                    = Some (toUSVString personalized)).
    { unfold request, WhatsApp.request_for, WhatsApp.twilio_request,
        WhatsApp.form_data, form_entry. reflexivity. }
    split; [reflexivity|]. split; [reflexivity|].
    split.
    { unfold request, WhatsApp.request_for, WhatsApp.twilio_request,
        WhatsApp.form_data, form_entry. cbn [body].
      rewrite (toUSVString_whatsapp_number (WhatsApp.to params)).
      reflexivity. }
    split; [exact Hbody|].
    split; [intro Hplain; rewrite Hbody, (toUSVString_plain _ Hplain);
            reflexivity|].
    unfold request, WhatsApp.request_for, WhatsApp.twilio_request,
      WhatsApp.form_data, form_entry.
    cbn [body]. destruct (WhatsApp.mediaUrl params) as [[|c m]|]; reflexivity. }
  unfold WhatsApp.sendWhatsAppMessage.
  rewrite (@bind_returned _ _ _ _ _ _ _ Hget), incomplete_guard, Hcomplete.
  cbv zeta. cbn [negb]. rewrite (valid_number_guard _ Hvalid).
  unfold try_catch, bind at 1.
  change (toString (get config (js "accountSid")) ++ js ":"
          ++ toString (get config (js "authToken")))
    with (WhatsApp.credentials_text config).
  unfold bind at 1. unfold settle at 1. rewrite Hbtoa.
  change (WhatsApp.twilio_request config (js "Basic " ++ credentials) _)
    with request.
  unfold bind, settle, perform, console_error, emit, ret. cbv beta.
  clearbody request w1.
  destruct (fetch env (trace w1) request) as [resp|e] eqn:Hfetch.
  - destruct (json resp) as [data|e] eqn:Hjson.
    + destruct (ok resp) eqn:Hok; cbn.
      * eexists _, _, []. split; [reflexivity|]. split; [reflexivity|].
        split; [reflexivity|]. split; [|exact Hfields].
        cbn. split; [intros _; exists resp, data; auto|reflexivity].
      * eexists _, _, [_]. split; [reflexivity|].
        split; [rewrite <- app_assoc; reflexivity|].
        split; [reflexivity|]. split; [|exact Hfields].
        cbn. split; [discriminate|].
        intros (resp' & data' & Hr & Hok' & _).
        injection Hr as <-. congruence.
    + cbn. eexists _, _, [_]. split; [reflexivity|].
      split; [rewrite <- app_assoc; reflexivity|].
      split; [reflexivity|]. split; [|exact Hfields].
      cbn. split; [discriminate|].
      intros (resp' & data' & Hr & _ & Hj).
      injection Hr as <-. congruence.
  - cbn. eexists _, _, [_]. split; [reflexivity|].
    split; [rewrite <- app_assoc; reflexivity|].
    split; [reflexivity|]. split; [|exact Hfields].
    cbn. split; [discriminate|].
    intros (resp' & data' & Hr & _). discriminate Hr.
Qed.

Lemma sendWhatsAppMessage_single_request_witness :
  exists result w' logs,
    WhatsApp.sendWhatsAppMessage Sample.configured
      (WhatsApp.message_for Sample.campaign Sample.maria) Sample.fresh
    = (Returned result, w')
    /\ trace w'
       = [ EvGetItem WhatsApp.WHATSAPP_CONFIG_KEY;
           EvFetch (WhatsApp.request_for Sample.stored_config
                      (WhatsApp.message_for Sample.campaign Sample.maria)
                      (js "AC0123:secret")) ] ++ logs
    /\ get (body (WhatsApp.request_for Sample.stored_config
                    (WhatsApp.message_for Sample.campaign Sample.maria)
                    (js "AC0123:secret"))) (js "Body")
       = Some (js "Hello Maria!").
Proof.
  destruct (@sendWhatsAppMessage_single_request Sample.configured
              (WhatsApp.message_for Sample.campaign Sample.maria) Sample.fresh
              Sample.stored_config (js "AC0123:secret") eq_refl eq_refl)
    as (result & w' & logs & Hrun & Htr & _ & _ & _ & _ & _ & Hbody & _ & _).
  - vm_compute. lia.
  - reflexivity.
  - exists result, w', logs. split; [exact Hrun|].
    split; [exact Htr|exact Hbody].
Defined.

(** How [sendWhatsAppMessage] reports the answer to its request.  An [ok]
    response gives [success: true] with the [sid] and [status] of the body.
    A response that is not [ok] gives a failure whose reason is the
    [message] of the body or, when that is missing or empty, [HTTP] and the
    status code, with the [code] of the body.  A request that fails, or a
    body that does not parse, gives a failure whose reason is the message of
    the error. *)
Theorem sendWhatsAppMessage_result (env : Env)
    (params : WhatsApp.Params) (w : World) (config : JsObj)
    (credentials : JsStr)
    (Hconfig : fst (WhatsApp.getWhatsAppConfig env w) = Returned config)
    (Hcomplete : WhatsApp.complete config = true)
    (Hvalid : 10 <= length (formatPhoneE164 (WhatsApp.to params)))
    (Hbtoa : btoa env (WhatsApp.credentials_text config) = Returned credentials) :
  let w1 := snd (WhatsApp.getWhatsAppConfig env w) in
  let answer :=
    fetch env (trace w1) (WhatsApp.request_for config params credentials) in
  let result := fst (WhatsApp.sendWhatsAppMessage env params w) in
  let failure reason :=
    Returned {| success := false; sid := None; delivery_status := None;
                error := reason; code := None; response := None |} in
  (forall resp data,
     answer = Returned resp -> json resp = Returned data -> ok resp = true ->
     result
     = Returned {| success := true; sid := get data (js "sid");
                   delivery_status := get data (js "status");
                   error := None; code := None; response := None |})
  /\ (forall resp data,
        answer = Returned resp -> json resp = Returned data ->
        ok resp = false ->
        result
        = Returned {| success := false; sid := None; delivery_status := None;
                      error := Some (or_else (get data (js "message"))
                                       (js "HTTP " ++ nat_toString (status resp)));
                      code := get data (js "code"); response := None |})
  /\ (forall resp e,
        answer = Returned resp -> json resp = Thrown e ->
        result = failure (err_message e))
  /\ (forall e, answer = Thrown e -> result = failure (err_message e)).
Proof.
  intros w1 answer result failure.
  destruct (isWhatsAppConfigured_runs env w)
    as (config' & pre & Hget & _ & _ & _).
  rewrite Hget in Hconfig. cbn in Hconfig. injection Hconfig as ->.
  fold w1 in Hget.
  assert (Hrun :
    result
    = fst (match answer with
           | Returned resp =>
               match json resp with
               | Returned data =>
                   if ok resp then
                     (Returned {| success := true; sid := get data (js "sid");
                                  delivery_status := get data (js "status");
                                  error := None; code := None;
                                  response := None |}, w1)
                   else
                     (Returned {| success := false; sid := None;
                                  delivery_status := None;
                                  error := Some (or_else (get data (js "message"))
                                                   (js "HTTP "
                                                    ++ nat_toString (status resp)));
                                  code := get data (js "code");
                                  response := None |}, w1)
               | Thrown e => (failure (err_message e), w1)
               end
           | Thrown e => (failure (err_message e), w1)
           end)).
  { unfold result, WhatsApp.sendWhatsAppMessage.
    rewrite (@bind_returned _ _ _ _ _ _ _ Hget), incomplete_guard, Hcomplete.
    cbv zeta. cbn [negb]. rewrite (valid_number_guard _ Hvalid).
    unfold try_catch, bind at 1.
    change (toString (get config (js "accountSid")) ++ js ":"
            ++ toString (get config (js "authToken")))
      with (WhatsApp.credentials_text config).
    unfold bind at 1. unfold settle at 1. rewrite Hbtoa.
    change (WhatsApp.twilio_request config (js "Basic " ++ credentials) _)
      with (WhatsApp.request_for config params credentials).
    unfold bind, settle, perform, console_error, emit, ret. cbv beta.
    fold answer. clearbody answer w1.
    destruct answer as [resp|e]; [|reflexivity].
    destruct (json resp) as [data|e]; [|reflexivity].
    destruct (ok resp); reflexivity. }
  rewrite Hrun. clear Hrun.
  repeat split.
  - intros resp data -> -> ->. reflexivity.
  - intros resp data -> -> ->. reflexivity.
  - intros resp e -> ->. reflexivity.
  - intros e ->. reflexivity.
Qed.

Lemma sendWhatsAppMessage_result_witness :
  fst (WhatsApp.sendWhatsAppMessage Sample.configured
         (WhatsApp.message_for Sample.campaign Sample.maria) Sample.fresh)
  = Returned {| success := true; sid := Some (js "SM1");
                delivery_status := Some (js "queued");
                error := None; code := None; response := None |}.
Proof.
  destruct (@sendWhatsAppMessage_result Sample.configured
              (WhatsApp.message_for Sample.campaign Sample.maria) Sample.fresh
              Sample.stored_config (js "AC0123:secret") eq_refl eq_refl)
    as (Hok & _).
  - vm_compute. lia.
  - reflexivity.
  - apply (Hok Sample.accepted _ eq_refl eq_refl eq_refl).
Defined.

(** When [btoa] rejects the credentials (a code unit above U+00FF), no
    request is sent: the error is caught and returned as a failure. *)
Theorem sendWhatsAppMessage_unencodable_credentials (env : Env)
    (params : WhatsApp.Params) (w : World) (config : JsObj) (e : JsError)
    (Hconfig : fst (WhatsApp.getWhatsAppConfig env w) = Returned config)
    (Hcomplete : WhatsApp.complete config = true)
    (Hvalid : 10 <= length (formatPhoneE164 (WhatsApp.to params)))
    (Hbtoa : btoa env (WhatsApp.credentials_text config) = Thrown e) :
  let w1 := snd (WhatsApp.getWhatsAppConfig env w) in
  exists w',
    WhatsApp.sendWhatsAppMessage env params w
    = (Returned {| success := false; sid := None; delivery_status := None;
                   error := err_message e; code := None; response := None |},
       w')
    /\ trace w' = trace w1 ++ [EvConsoleError (js "WhatsApp send error:")]
    /\ length (filter is_fetch (trace w'))
       = length (filter is_fetch (trace w)).
Proof.
  intro w1.
  destruct (isWhatsAppConfigured_runs env w)
    as (config' & pre & Hget & _ & Htr & Hst).
  rewrite Hget in Hconfig. cbn in Hconfig. injection Hconfig as ->.
  fold w1 in Hget, Htr.
  unfold WhatsApp.sendWhatsAppMessage.
  rewrite (@bind_returned _ _ _ _ _ _ _ Hget), incomplete_guard, Hcomplete.
  cbv zeta. cbn [negb]. rewrite (valid_number_guard _ Hvalid).
  unfold try_catch, bind at 1.
  change (toString (get config (js "accountSid")) ++ js ":"
          ++ toString (get config (js "authToken")))
    with (WhatsApp.credentials_text config).
  unfold bind at 1. unfold settle at 1. rewrite Hbtoa.
  unfold bind, perform, console_error, emit, ret. cbv beta.
  eexists. split; [reflexivity|]. split; [reflexivity|].
  cbn [trace]. rewrite Htr, !filter_app, (storage_no_fetch _ Hst).
  cbn. rewrite !app_nil_r. reflexivity.
Qed.

Lemma sendWhatsAppMessage_unencodable_credentials_witness :
  exists w',
    WhatsApp.sendWhatsAppMessage Sample.strict_btoa
      (WhatsApp.message_for Sample.campaign Sample.maria) Sample.fresh
    = (Returned {| success := false; sid := None; delivery_status := None;
                   error := Some (js "Invalid character"); code := None;
                   response := None |}, w')
    /\ length (filter is_fetch (trace w')) = 0.
Proof.
  destruct (@sendWhatsAppMessage_unencodable_credentials Sample.strict_btoa
              (WhatsApp.message_for Sample.campaign Sample.maria) Sample.fresh
              Sample.stored_config (Error (js "Invalid character"))
              eq_refl eq_refl)
    as (w' & Hrun & _ & Hfetch).
  - vm_compute. lia.
  - reflexivity.
  - exists w'. split; [exact Hrun|exact Hfetch].
Defined.

(** ** whatsappService.js: requests of a bulk run *)

Lemma pause_no_fetch (evs : list Event) :
  forallb is_pause evs = true -> filter is_fetch evs = [].
Proof.
  induction evs as [|ev evs IH]; cbn; intro H; [reflexivity|].
  apply andb_true_iff in H as [Hev Hevs].
  destruct ev; try discriminate; cbn; auto.
Qed.

(** A bulk run sends at most one request for each recipient and never
    counts a message as sent without having sent a request for it: the
    requests of the run are at least [sent] and at most the number of
    recipients, and there is none when the configuration check fails. *)
Theorem sendBulkWhatsApp_one_request_per_recipient (env : Env)
    (recipients : list WhatsApp.Recipient) (campaign : Campaign)
    (onProgress : option Callback) (w : World)
    (Hcb : callback_returns onProgress) :
  exists results w',
    WhatsApp.sendBulkWhatsApp env recipients campaign onProgress w
      = (Returned results, w')
    /\ length (filter is_fetch (trace w)) + sent results
       <= length (filter is_fetch (trace w'))
    /\ length (filter is_fetch (trace w'))
       <= length (filter is_fetch (trace w)) + length recipients
    /\ (fst (WhatsApp.isWhatsAppConfigured env w) = Returned false ->
        length (filter is_fetch (trace w'))
        = length (filter is_fetch (trace w))).
Proof.
  destruct (sendBulkWhatsAppWith_ledger env (WhatsApp.sendWhatsAppMessage env)
              recipients campaign w Hcb)
    as (results & w' & Hrun & Hcount & Hcases).
  fold (WhatsApp.sendBulkWhatsApp env) in Hrun.
  exists results, w'. split; [exact Hrun|].
  destruct (isWhatsAppConfigured_runs env w)
    as (config & pre & _ & _ & Htr & Hst).
  set (w1 := snd (WhatsApp.getWhatsAppConfig env w)) in *.
  assert (Hf1 : length (filter is_fetch (trace w1))
                = length (filter is_fetch (trace w))).
  { rewrite Htr, filter_app, (storage_no_fetch _ Hst), app_nil_r. reflexivity. }
  destruct Hcases as [(Hcfg & _)|(Hcfg & Hsent & _)].
  - unfold WhatsApp.sendBulkWhatsApp in Hrun.
    rewrite sendBulkWhatsAppWith_complete in Hrun by assumption.
    fold w1 in Hrun.
    set (f0 := length (filter is_fetch (trace w1))) in *.
    destruct (@dispatch_invariant _ _ WhatsApp.phone WhatsApp.name
                (fun r => WhatsApp.sendWhatsAppMessage env
                            (WhatsApp.message_for campaign r))
                WhatsApp.sentDetail WhatsApp.failedDetail 500 onProgress
                (length recipients) Hcb
                (fun (results : Results WhatsApp.Detail) (w : World) =>
                   f0 + sent results <= length (filter is_fetch (trace w))
                   /\ length (filter is_fetch (trace w))
                      <= f0 + sent results + failed results))
      with (recipients := recipients)
           (results := {| sent := 0; failed := 0; errors := [];
                          details := ([] : list WhatsApp.Detail) |})
           (w := w1)
      as (results2 & w2 & Hrun2 & Hlow & Hhigh).
    + intros res wa wb (Hl & Hh) _ (evs & Hevs & Hp).
      rewrite Hevs, filter_app, (pause_no_fetch _ Hp), app_nil_r.
      split; assumption.
    + intros r res wa (Hl & Hh).
      destruct (sendWhatsAppMessage_fetches env
                  (WhatsApp.message_for campaign r) wa)
        as (_ & Hbound & Hsuccess & _).
      cbv zeta in Hbound, Hsuccess.
      destruct (fst (WhatsApp.sendWhatsAppMessage env
                       (WhatsApp.message_for campaign r) wa))
        as [result|e] eqn:Hout; cbn [outcome_recorded].
      * destruct (success result) eqn:Hs;
          cbn [success_recorded failure_recorded sent failed].
        -- pose proof (Hsuccess result eq_refl Hs). lia.
        -- lia.
      * cbn [failure_recorded sent failed]. lia.
    + cbn [sent failed]. unfold f0. lia.
    + rewrite Hrun in Hrun2. injection Hrun2 as <- <-.
      unfold f0 in *. split; [lia|]. split; [lia|].
      intro Hno. rewrite Hcfg in Hno. discriminate Hno.
  - unfold WhatsApp.sendBulkWhatsApp in Hrun.
    rewrite sendBulkWhatsAppWith_incomplete in Hrun by assumption.
    injection Hrun as <- <-. fold w1. cbn [sent].
    split; [lia|]. split; [lia|]. intros _. exact Hf1.
Qed.

Lemma sendBulkWhatsApp_one_request_per_recipient_witness :
  (exists results w',
     WhatsApp.sendBulkWhatsApp Sample.flaky
       [Sample.maria; Sample.john; Sample.short] Sample.campaign
       (Some Sample.silent) Sample.fresh
     = (Returned results, w')
     /\ sent results <= length (filter is_fetch (trace w'))
     /\ length (filter is_fetch (trace w')) <= 3)
  /\ (exists results w',
       WhatsApp.sendBulkWhatsApp Sample.unconfigured
         [Sample.maria; Sample.john] Sample.campaign
         (Some Sample.silent) Sample.fresh
       = (Returned results, w')
       /\ length (filter is_fetch (trace w')) = 0).
Proof.
  assert (Hsilent : callback_returns (Some Sample.silent)).
  { intros cb Heq h current total phase name.
    injection Heq as <-. reflexivity. }
  split.
  - destruct (@sendBulkWhatsApp_one_request_per_recipient Sample.flaky
                [Sample.maria; Sample.john; Sample.short] Sample.campaign
                (Some Sample.silent) Sample.fresh Hsilent)
      as (results & w' & Hrun & Hlow & Hhigh & _).
    exists results, w'. split; [exact Hrun|]. split; [exact Hlow|exact Hhigh].
  - destruct (@sendBulkWhatsApp_one_request_per_recipient Sample.unconfigured
                [Sample.maria; Sample.john] Sample.campaign
                (Some Sample.silent) Sample.fresh Hsilent)
      as (results & w' & Hrun & _ & _ & Hnone).
    exists results, w'. split; [exact Hrun|]. exact (Hnone eq_refl).
Defined.

(** ** whatsappService.js: the environment variables *)

Lemma truthy_or_else_empty (o : option JsStr) :
  truthy_opt (Some (or_else o [])) = truthy_opt o.
Proof. destruct o as [[|c s]|]; reflexivity. Qed.

(** With nothing stored under the configuration key, the configuration is
    the one of the build's environment variables, and WhatsApp counts as
    configured exactly when the three variables are set and non-empty. *)
Theorem isWhatsAppConfigured_environment_fallback (env : Env) (w : World)
    (Hempty : localStorage_getItem env (trace w) WhatsApp.WHATSAPP_CONFIG_KEY
              = Returned None) :
  fst (WhatsApp.getWhatsAppConfig env w) = Returned (WhatsApp.DEFAULT_CONFIG env)
  /\ get (WhatsApp.DEFAULT_CONFIG env) (js "accountSid")
     = Some (or_else (REACT_APP_TWILIO_ACCOUNT_SID env) [])
  /\ get (WhatsApp.DEFAULT_CONFIG env) (js "authToken")
     = Some (or_else (REACT_APP_TWILIO_AUTH_TOKEN env) [])
  /\ get (WhatsApp.DEFAULT_CONFIG env) (js "fromNumber")
     = Some (or_else (REACT_APP_TWILIO_WHATSAPP_FROM env) [])
  /\ fst (WhatsApp.isWhatsAppConfigured env w)
     = Returned (truthy_opt (REACT_APP_TWILIO_ACCOUNT_SID env)
                 && truthy_opt (REACT_APP_TWILIO_AUTH_TOKEN env)
                 && truthy_opt (REACT_APP_TWILIO_WHATSAPP_FROM env)).
Proof.
  assert (Hget : fst (WhatsApp.getWhatsAppConfig env w)
                 = Returned (WhatsApp.DEFAULT_CONFIG env)).
  { unfold WhatsApp.getWhatsAppConfig, bind, try_catch, perform, ret.
    cbv beta. rewrite Hempty. reflexivity. }
  split; [exact Hget|]. repeat split.
  destruct (isWhatsAppConfigured_runs env w) as (config & evs & Hrun & Hcfg & _).
  rewrite Hrun in Hget. cbn [fst] in Hget. injection Hget as ->.
  rewrite Hcfg. cbn [fst]. f_equal.
  unfold WhatsApp.complete.
  change (get (WhatsApp.DEFAULT_CONFIG env) (js "accountSid"))
    with (Some (or_else (REACT_APP_TWILIO_ACCOUNT_SID env) [])).
  change (get (WhatsApp.DEFAULT_CONFIG env) (js "authToken"))
    with (Some (or_else (REACT_APP_TWILIO_AUTH_TOKEN env) [])).
  change (get (WhatsApp.DEFAULT_CONFIG env) (js "fromNumber"))
    with (Some (or_else (REACT_APP_TWILIO_WHATSAPP_FROM env) [])).
  rewrite !truthy_or_else_empty. reflexivity.
Qed.

Lemma isWhatsAppConfigured_environment_fallback_witness :
  fst (WhatsApp.isWhatsAppConfigured Sample.from_environment Sample.fresh)
  = Returned true
  /\ fst (WhatsApp.isWhatsAppConfigured Sample.unconfigured Sample.fresh)
     = Returned false.
Proof.
  destruct (@isWhatsAppConfigured_environment_fallback
              Sample.from_environment Sample.fresh eq_refl)
    as (_ & _ & _ & _ & Hyes).
  destruct (@isWhatsAppConfigured_environment_fallback
              Sample.unconfigured Sample.fresh eq_refl)
    as (_ & _ & _ & _ & Hno).
  split; [exact Hyes|exact Hno].
Defined.

(** ** The empty list *)

(** A bulk send over no recipient, once past the configuration check, sends
    nothing and waits for nothing: it returns the empty ledger, and the
    callback, if any, is called once, with [(0, 0, 'completed')]. *)
Theorem bulk_send_of_no_recipient (env : Env) (campaign : Campaign)
    (onProgress : option Callback) (w : World)
    (Hcb : callback_returns onProgress) :
  let empty D :=
    {| sent := 0; failed := 0; errors := []; details := ([] : list D) |} in
  (fst (WhatsApp.isWhatsAppConfigured env w) = Returned true ->
   exists w',
     WhatsApp.sendBulkWhatsApp env [] campaign onProgress w
       = (Returned (empty WhatsApp.Detail), w')
     /\ trace w'
        = trace (snd (WhatsApp.getWhatsAppConfig env w))
          ++ reported onProgress 0 0 (js "completed") None)
  /\ (fst (Email.prepare env w) = Returned true ->
      exists w',
        Email.sendBulkEmails env [] campaign onProgress w
          = (Returned (empty Email.Detail), w')
        /\ trace w'
           = trace (snd (Email.prepare env w))
             ++ reported onProgress 0 0 (js "completed") None).
Proof.
  intro empty. split; intro Hcfg.
  - unfold WhatsApp.sendBulkWhatsApp.
    rewrite sendBulkWhatsAppWith_complete by assumption.
    destruct (report_runs Hcb 0 0 (js "completed") None
                (snd (WhatsApp.getWhatsAppConfig env w))) as (w' & Hrep & Htr).
    exists w'. unfold dispatch, bind. cbn [loop length].
    unfold ret at 1. rewrite Hrep. split; [reflexivity|exact Htr].
  - unfold Email.sendBulkEmails.
    rewrite sendBulkEmailsWith_complete by assumption.
    destruct (report_runs Hcb 0 0 (js "completed") None
                (snd (Email.prepare env w))) as (w' & Hrep & Htr).
    exists w'. unfold dispatch, bind. cbn [loop length].
    unfold ret at 1. rewrite Hrep. split; [reflexivity|exact Htr].
Qed.

Lemma bulk_send_of_no_recipient_witness :
  exists w',
    WhatsApp.sendBulkWhatsApp Sample.configured [] Sample.campaign
      (Some Sample.silent) Sample.fresh
    = (Returned {| sent := 0; failed := 0; errors := []; details := [] |}, w')
    /\ trace w'
       = [ EvGetItem WhatsApp.WHATSAPP_CONFIG_KEY;
           EvProgress 0 0 (js "completed") None ].
Proof.
  destruct (@bulk_send_of_no_recipient Sample.configured Sample.campaign
              (Some Sample.silent) Sample.fresh)
    as [Hwa _].
  - intros cb Heq h current total phase name.
    injection Heq as <-. reflexivity.
  - destruct (Hwa eq_refl) as (w' & Hrun & Htr).
    exists w'. split; [exact Hrun|exact Htr].
Defined.

(** ** emailService.js: the configuration *)

(** [getEmailJSConfig] never throws and sends one GET request.  When the
    request resolves with an [ok] response whose body parses, the body is
    returned and becomes the cached configuration, which
    [getEmailJSConfigSync] then returns; otherwise the all-empty
    configuration is returned and the cache is left as it was, so that
    [getEmailJSConfigSync] still returns what was cached before. *)
Theorem getEmailJSConfig_caches_answer (env : Env) (w : World) :
  let request := Email.config_request env in
  let answer := fetch env (trace w) request in
  exists config w' logs,
    Email.getEmailJSConfig env w = (Returned config, w')
    /\ trace w' = trace w ++ EvFetch request :: logs
    /\ forallb is_storage logs = true
    /\ method request = js "GET"
    /\ ((exists resp,
           answer = Returned resp /\ ok resp = true
           /\ json resp = Returned config
           /\ cachedConfig w' = Some config
           /\ fst (Email.getEmailJSConfigSync w') = Returned config)
        \/ ((forall resp, answer = Returned resp ->
               ok resp = false \/ exists e, json resp = Thrown e)
            /\ config = Email.EMPTY_CONFIG
            /\ cachedConfig w' = cachedConfig w
            /\ fst (Email.getEmailJSConfigSync w')
               = fst (Email.getEmailJSConfigSync w))).
Proof.
  intros request answer.
  unfold Email.getEmailJSConfig, bind, try_catch, perform, settle, ret,
    write_cachedConfig, console_error, emit.
  cbv beta. fold request. fold answer.
  destruct answer as [resp|e] eqn:Hanswer.
  - destruct (ok resp) eqn:Hok.
    + destruct (json resp) as [config|e] eqn:Hjson; cbn.
      * eexists _, _, []. repeat split.
        left. exists resp. repeat split; assumption.
      * eexists _, _, [_]. split; [reflexivity|].
        split; [rewrite <- app_assoc; reflexivity|]. repeat split.
        right. repeat split.
        intros resp' Heq. injection Heq as <-. right. eauto.
    + cbn. eexists _, _, []. repeat split.
      right. repeat split.
      intros resp' Heq. injection Heq as <-. left. assumption.
  - cbn. eexists _, _, [_]. split; [reflexivity|].
    split; [rewrite <- app_assoc; reflexivity|]. repeat split.
    right. repeat split. intros resp' Heq. discriminate Heq.
Qed.

Lemma getEmailJSConfig_caches_answer_witness :
  exists config w' logs,
    Email.getEmailJSConfig Sample.unconfigured Sample.email_ready
      = (Returned config, w')
    /\ trace w'
       = trace Sample.email_ready
         ++ EvFetch (Email.config_request Sample.unconfigured) :: logs
    /\ config = Email.EMPTY_CONFIG
    /\ fst (Email.getEmailJSConfigSync w') = Returned Sample.email_config.
Proof.
  destruct (getEmailJSConfig_caches_answer Sample.unconfigured
              Sample.email_ready)
    as (config & w' & logs & Hrun & Htr & _ & _ & Hcases).
  exists config, w', logs. split; [exact Hrun|]. split; [exact Htr|].
  destruct Hcases as [(resp & Habs & _)|(_ & Hempty & _ & Hsync)].
  - discriminate Habs.
  - split; [exact Hempty|]. rewrite Hsync. reflexivity.
Defined.

(** [saveEmailJSConfig] never throws and sends one PUT request carrying the
    configuration.  It returns [true] exactly when the request resolves with
    an [ok] response whose body parses, and what it caches then is that
    body, the server's answer, not its argument; when it returns [false]
    the cache is unchanged. *)
Theorem saveEmailJSConfig_caches_answer (env : Env) (config : JsObj)
    (w : World) :
  let request := Email.save_request env config in
  let answer := fetch env (trace w) request in
  exists saved w' logs,
    Email.saveEmailJSConfig env config w = (Returned saved, w')
    /\ trace w' = trace w ++ EvFetch request :: logs
    /\ forallb is_storage logs = true
    /\ method request = js "PUT" /\ body request = config
    /\ (saved = true <->
        exists resp stored,
          answer = Returned resp /\ ok resp = true
          /\ json resp = Returned stored)
    /\ (forall resp stored,
          answer = Returned resp -> ok resp = true ->
          json resp = Returned stored ->
          cachedConfig w' = Some stored
          /\ fst (Email.getEmailJSConfigSync w') = Returned stored)
    /\ (saved = false -> cachedConfig w' = cachedConfig w).
Proof.
  intros request answer.
  unfold Email.saveEmailJSConfig, bind, try_catch, perform, settle, ret,
    write_cachedConfig, console_error, emit.
  cbv beta. fold request. fold answer.
  destruct answer as [resp|e] eqn:Hanswer;
    [destruct (ok resp) eqn:Hok;
     [destruct (json resp) as [stored|e] eqn:Hjson|]|];
    cbn;
    [eexists _, _, [] | eexists _, _, [_] | eexists _, _, [] | eexists _, _, [_]];
    (split; [reflexivity|]);
    (split; [rewrite <- ?app_assoc; reflexivity|]);
    (split; [reflexivity|]); (split; [reflexivity|]); (split; [reflexivity|]);
    (split; [split|split]).
  - intros _. exists resp, stored. auto.
  - reflexivity.
  - intros resp' stored' Heq _ Hj. injection Heq as <-.
    rewrite Hjson in Hj. injection Hj as <-. split; reflexivity.
  - discriminate.
  - discriminate.
  - intros (resp' & stored' & Heq & _ & Hj). injection Heq as <-. congruence.
  - intros resp' stored' Heq _ Hj. injection Heq as <-. congruence.
  - reflexivity.
  - discriminate.
  - intros (resp' & stored' & Heq & Hok' & _). injection Heq as <-. congruence.
  - intros resp' stored' Heq Hok' _. injection Heq as <-. congruence.
  - reflexivity.
  - discriminate.
  - intros (resp' & stored' & Heq & _). discriminate Heq.
  - intros resp' stored' Heq. discriminate Heq.
  - reflexivity.
Qed.

Lemma saveEmailJSConfig_caches_answer_witness :
  exists w',
    Email.saveEmailJSConfig Sample.backend Sample.email_config Sample.fresh
      = (Returned true, w')
    /\ cachedConfig w' = Some Sample.email_config.
Proof.
  destruct (saveEmailJSConfig_caches_answer Sample.backend Sample.email_config
              Sample.fresh)
    as (saved & w' & logs & Hrun & _ & _ & _ & _ & Hsaved & Hcache & _).
  destruct (Hcache Sample.config_response Sample.email_config
              eq_refl eq_refl eq_refl) as (Hc & _).
  assert (Htrue : saved = true).
  { apply Hsaved. exists Sample.config_response, Sample.email_config.
    repeat split. }
  subst saved. exists w'. split; [exact Hrun|exact Hc].
Defined.

(** ** emailService.js: the single send *)

Lemma bind_read_cachedConfig (B : Type) (k : option JsObj -> M B) (w : World) :
  bind read_cachedConfig k w = k (cachedConfig w) w.
Proof. reflexivity. Qed.

Lemma bind_ret (A B : Type) (a : A) (k : A -> M B) (w : World) :
  bind (ret a) k w = k a w.
Proof. reflexivity. Qed.

(** With a cached configuration that has its three keys, [sendEmail] never
    throws and never fetches: it calls [emailjs.send] once, for the cached
    service, template and public key, with the recipient's name or else
    [Client], the subject or else [Afroboost - Message], and the
    personalised message followed, when there is a media URL, by the link
    to it.  It returns [success: true] with the SDK's response when the call
    resolves, and otherwise a failure whose reason is the [text] of the
    error or, when that is missing or empty, its [message]. *)
Theorem sendEmail_with_cached_config (env : Env) (params : Email.Params)
    (w : World) (config : JsObj)
    (Hcached : cachedConfig w = Some config)
    (Hservice : truthy_opt (get config (js "serviceId")) = true)
    (Htemplate : truthy_opt (get config (js "templateId")) = true)
    (Hkey : truthy_opt (get config (js "publicKey")) = true) :
  let serviceId := toString (get config (js "serviceId")) in
  let templateId := toString (get config (js "templateId")) in
  let publicKey := toString (get config (js "publicKey")) in
  let templateParams := Email.template_params params in
  let answer :=
    emailjs_send env (trace w) serviceId templateId templateParams publicKey in
  exists result w' logs,
    Email.sendEmail env params w = (Returned result, w')
    /\ trace w'
       = trace w
         ++ EvEmailSend serviceId templateId templateParams publicKey :: logs
    /\ forallb is_storage logs = true
    /\ cachedConfig w' = Some config
    /\ (forall response,
          answer = Returned response ->
          result = {| success := true; sid := None; delivery_status := None;
                      error := None; code := None;
                      response := Some response |})
    /\ (forall e,
          answer = Thrown e ->
          result = {| success := false; sid := None; delivery_status := None;
                      error := if truthy_opt (err_text e)
                               then err_text e else err_message e;
                      code := None; response := None |})
    /\ get templateParams (js "to_email") = Some (Email.to_email params)
    /\ get templateParams (js "to_name")
       = Some (or_else (Email.to_name params) (js "Client"))
    /\ get templateParams (js "subject")
       = Some (or_else (Email.subject params) (js "Afroboost - Message"))
    /\ get templateParams (js "message")
       = Some (if truthy_opt (Email.media_url params)
               then personalize (Email.message params) (Email.to_name params)
                    ++ Email.MEDIA_PREFIX ++ toString (Email.media_url params)
               else personalize (Email.message params) (Email.to_name params)).
Proof.
  intros serviceId templateId publicKey templateParams answer.
  unfold Email.sendEmail.
  rewrite bind_read_cachedConfig, Hcached, bind_ret, Hservice, Htemplate, Hkey.
  cbn [negb orb]. cbv zeta.
  change (toString (get config (js "serviceId"))) with serviceId.
  change (toString (get config (js "templateId"))) with templateId.
  change (toString (get config (js "publicKey"))) with publicKey.
  match goal with
  | |- context [EvEmailSend serviceId templateId ?p publicKey] =>
      change p with templateParams
  end.
  unfold try_catch, bind, perform, console_error, emit, ret. cbv beta.
  fold answer.
  destruct answer as [response|e] eqn:Hanswer; cbn;
    [eexists _, _, [] | eexists _, _, [_]];
    (split; [reflexivity|]);
    (split; [rewrite <- ?app_assoc; reflexivity|]);
    (split; [reflexivity|]); (split; [exact Hcached|]);
    (split; [|split; [|repeat split]]).
  - intros response' Heq. injection Heq as <-. reflexivity.
  - discriminate.
  - discriminate.
  - intros e' Heq. injection Heq as <-. reflexivity.
Qed.

Lemma sendEmail_with_cached_config_witness :
  exists w',
    Email.sendEmail Sample.configured
      (Email.message_for Sample.campaign Sample.ana) Sample.email_ready
    = (Returned {| success := true; sid := None; delivery_status := None;
                   error := None; code := None;
                   response := Some [ (js "text", js "OK") ] |}, w')
    /\ get (Email.template_params
              (Email.message_for Sample.campaign Sample.ana)) (js "message")
       = Some (js "Hello Ana!").
Proof.
  destruct (@sendEmail_with_cached_config Sample.configured
              (Email.message_for Sample.campaign Sample.ana)
              Sample.email_ready Sample.email_config
              eq_refl eq_refl eq_refl eq_refl)
    as (result & w' & logs & Hrun & _ & _ & _ & Hok & _ & _ & _ & _ & Hmsg).
  rewrite (Hok _ eq_refl) in Hrun.
  exists w'. split; [exact Hrun|exact Hmsg].
Defined.

Lemma filter_none (A : Type) (p : A -> bool) (l : list A) :
  forallb (fun a => negb (p a)) l = true -> filter p l = [].
Proof.
  induction l as [|a l IH]; cbn; intro H; [reflexivity|].
  apply andb_true_iff in H as [Ha Hl]. apply negb_true_iff in Ha.
  rewrite Ha. auto.
Qed.

Lemma getEmailJSConfig_no_send (env : Env) :
  only (fun ev => negb (is_email_send ev)) (Email.getEmailJSConfig env).
Proof. unfold Email.getEmailJSConfig, console_error, emit. only_auto. Qed.

(** With a configuration that lacks one of its three keys, [sendEmail],
    and so [testEmailJSConfig], throws instead of returning a failure, and
    never calls [emailjs.send]: at once when the configuration is cached,
    and after one fetch of the configuration when nothing is cached. *)
Theorem sendEmail_not_configured_throws (env : Env) (params : Email.Params)
    (w : World) (config : JsObj)
    (Hconfig : match cachedConfig w with
               | Some cached => config = cached
               | None => fst (Email.getEmailJSConfig env w) = Returned config
               end)
    (Hmissing : truthy_opt (get config (js "serviceId")) = false
                \/ truthy_opt (get config (js "templateId")) = false
                \/ truthy_opt (get config (js "publicKey")) = false) :
  let w1 := match cachedConfig w with
            | Some _ => w
            | None => snd (Email.getEmailJSConfig env w)
            end in
  Email.sendEmail env params w = (Thrown (Error Email.NOT_CONFIGURED_LONG), w1)
  /\ (forall testEmail,
        Email.testEmailJSConfig env testEmail w
        = (Thrown (Error Email.NOT_CONFIGURED_LONG), w1))
  /\ filter is_email_send (trace w1) = filter is_email_send (trace w).
Proof.
  intro w1.
  assert (Hguard :
    negb (truthy_opt (get config (js "serviceId")))
    || negb (truthy_opt (get config (js "templateId")))
    || negb (truthy_opt (get config (js "publicKey"))) = true).
  { destruct Hmissing as [H|[H|H]]; rewrite H; cbn;
      rewrite ?orb_true_r; reflexivity. }
  assert (Hthrow : forall params',
            Email.sendEmail env params' w
            = (Thrown (Error Email.NOT_CONFIGURED_LONG), w1)).
  { intro params'. unfold Email.sendEmail. rewrite bind_read_cachedConfig.
    subst w1. destruct (cachedConfig w) as [cached|].
    - subst cached. rewrite bind_ret, Hguard. reflexivity.
    - destruct (Email.getEmailJSConfig env w) as [o w2] eqn:Hget.
      cbn [fst snd] in *. subst o.
      rewrite (@bind_returned _ _ _ _ _ _ _ Hget), Hguard. reflexivity. }
  split; [apply Hthrow|]. split; [intro testEmail; apply Hthrow|].
  subst w1. destruct (cachedConfig w); [reflexivity|].
  destruct (getEmailJSConfig_no_send env w) as (evs & Htr & Hnone).
  rewrite Htr, filter_app, (filter_none _ _ Hnone), app_nil_r. reflexivity.
Qed.

Lemma sendEmail_not_configured_throws_witness :
  fst (Email.testEmailJSConfig Sample.unconfigured (js "ana@example.org")
         Sample.fresh)
  = Thrown (Error Email.NOT_CONFIGURED_LONG).
Proof.
  destruct (@sendEmail_not_configured_throws Sample.unconfigured
              (Email.message_for Sample.campaign Sample.ana) Sample.fresh
              Email.EMPTY_CONFIG eq_refl (or_introl eq_refl))
    as (_ & Htest & _).
  rewrite Htest. reflexivity.
Defined.

(** ** emailService.js: bulk runs *)

Section AllThrown.

Variables R D : Type.
Variable address : R -> JsStr.
Variable name_of : R -> option JsStr.
Variable send : R -> M SendResult.
Variable sentDetail : R -> SendResult -> D.
Variable failedDetail : R -> option JsStr -> D.
Variable delay : nat.
Variable onProgress : option Callback.
Variable total : nat.
Variable cached : option JsObj.
Variable e : JsError.

Hypothesis Hcb : callback_returns onProgress.

(** Every send throws [e] at once while the cache holds [cached]. *)
Hypothesis Hthrown :
  forall r w, cachedConfig w = cached -> send r w = (Thrown e, w).

Lemma loop_all_thrown (rest : list R) :
  forall i results w,
    cachedConfig w = cached ->
    exists w' evs,
      loop address name_of send sentDetail failedDetail delay onProgress total
           i rest results w
      = (Returned
           {| sent := sent results;
              failed := failed results + length rest;
              errors := errors results
                ++ map (fun r => address r ++ js ": " ++ toString (err_message e))
                       rest;
              details := details results
                ++ map (fun r => failedDetail r (err_message e)) rest |},
         w')
      /\ cachedConfig w' = cached
      /\ trace w' = trace w ++ evs
      /\ forallb is_pause evs = true.
Proof.
  induction rest as [|r rest IH]; intros i results w Hc.
  - exists w, []. cbn [loop length map]. rewrite Nat.add_0_r, !app_nil_r.
    destruct results; cbn. repeat split. assumption.
  - destruct (report_pause Hcb (i + 1) total (js "sending")
                (Some (or_else (name_of r) (address r))) w)
      as (w1 & Hrep & Hcc1 & evs1 & Htr1 & Hp1).
    assert (Hc1 : cachedConfig w1 = cached) by congruence.
    pose proof (@attempt_thrown _ _ address send sentDetail failedDetail
                  r results w1 w1 e (Hthrown r w1 Hc1)) as Hatt.
    set (results1 := failure_recorded address failedDetail r (err_message e)
                       results) in *.
    assert (Hit : exists w2 evs2,
              iteration address name_of send sentDetail failedDetail delay
                        onProgress total i r results w
              = (Returned results1, w2)
              /\ cachedConfig w2 = cached
              /\ trace w2 = trace w ++ evs2
              /\ forallb is_pause evs2 = true).
    { unfold iteration, bind. rewrite Hrep, Hatt.
      destruct (i <? total - 1); cbn.
      - eexists _, (evs1 ++ [EvSleep delay]). split; [reflexivity|].
        cbn. split; [assumption|]. rewrite Htr1, <- app_assoc.
        split; [reflexivity|]. rewrite forallb_app, Hp1. reflexivity.
      - exists w1, evs1. repeat split; assumption. }
    destruct Hit as (w2 & evs2 & Hrun2 & Hc2 & Htr2 & Hp2).
    destruct (IH (i + 1) results1 w2 Hc2) as (w3 & evs3 & Hrun3 & Hc3 & Htr3 & Hp3).
    exists w3, (evs2 ++ evs3). cbn [loop]. unfold bind at 1.
    rewrite Hrun2, Hrun3. unfold results1, failure_recorded.
    cbn [sent failed errors details length map].
    rewrite <- !app_assoc. cbn [app].
    replace (failed results + 1 + length rest)
      with (failed results + S (length rest)) by lia.
    split; [reflexivity|]. split; [assumption|].
    rewrite Htr3, Htr2, <- app_assoc. split; [reflexivity|].
    rewrite forallb_app, Hp2, Hp3. reflexivity.
Qed.

End AllThrown.

Lemma pause_no_email_send (evs : list Event) :
  forallb is_pause evs = true -> filter is_email_send evs = [].
Proof.
  induction evs as [|ev evs IH]; cbn; intro H; [reflexivity|].
  apply andb_true_iff in H as [Hev Hevs].
  destruct ev; try discriminate; cbn; auto.
Qed.

(** The guard of [sendBulkEmails] only looks at the public key.  With a
    cached configuration that has a public key but lacks the service or the
    template identifier, [isEmailJSConfigured] is false and yet the loop
    runs: every recipient is recorded as failed with the message of the
    configuration error, none is sent, and [emailjs.send] is never
    called. *)
Theorem sendBulkEmails_partial_configuration (env : Env)
    (recipients : list Email.Recipient) (campaign : Campaign)
    (onProgress : option Callback) (w : World) (config : JsObj)
    (Hcb : callback_returns onProgress)
    (Hcached : cachedConfig w = Some config)
    (Hkey : truthy_opt (get config (js "publicKey")) = true)
    (Hmissing : truthy_opt (get config (js "serviceId")) = false
                \/ truthy_opt (get config (js "templateId")) = false) :
  fst (Email.isEmailJSConfigured w) = Returned false
  /\ exists w',
       Email.sendBulkEmails env recipients campaign onProgress w
       = (Returned
            {| sent := 0;
               failed := length recipients;
               errors :=
                 map (fun r => Email.email r ++ js ": "
                               ++ Email.NOT_CONFIGURED_LONG) recipients;
               details :=
                 map (fun r => Email.failedDetail r
                                 (Some Email.NOT_CONFIGURED_LONG)) recipients |},
          w')
       /\ filter is_email_send (trace w') = filter is_email_send (trace w)
       /\ filter is_fetch (trace w') = filter is_fetch (trace w).
Proof.
  split.
  { unfold Email.isEmailJSConfigured. rewrite bind_read_cachedConfig, Hcached.
    cbn [fst ret]. unfold ret. cbn [fst]. f_equal.
    destruct Hmissing as [H|H]; rewrite H; cbn;
      rewrite ?andb_false_r; reflexivity. }
  set (w1 := {| trace := trace w
                  ++ [EvEmailInit (toString (get config (js "publicKey")))];
                cachedConfig := cachedConfig w |}).
  assert (Hprep : Email.prepare env w = (Returned true, w1)).
  { unfold Email.prepare. rewrite bind_read_cachedConfig, Hcached, bind_ret.
    unfold Email.initEmailJS. rewrite bind_read_cachedConfig, Hcached, Hkey.
    reflexivity. }
  unfold Email.sendBulkEmails.
  rewrite sendBulkEmailsWith_complete by (rewrite Hprep; reflexivity).
  rewrite Hprep. cbn [snd].
  assert (Hgu : negb (truthy_opt (get config (js "serviceId")))
                || negb (truthy_opt (get config (js "templateId")))
                || negb (truthy_opt (get config (js "publicKey"))) = true).
  { destruct Hmissing as [H|H]; rewrite H; cbn;
      rewrite ?orb_true_r; reflexivity. }
  destruct (@loop_all_thrown _ _ Email.email Email.name
              (fun r => Email.sendEmail env (Email.message_for campaign r))
              Email.sentDetail Email.failedDetail 200 onProgress
              (length recipients) (Some config)
              (Error Email.NOT_CONFIGURED_LONG) Hcb)
    with (rest := recipients) (i := 0)
         (results := {| sent := 0; failed := 0; errors := [];
                        details := ([] : list Email.Detail) |})
         (w := w1)
    as (w2 & evs & Hloop & Hc2 & Htr2 & Hp2).
  { intros r wx Hcx. unfold Email.sendEmail.
    rewrite bind_read_cachedConfig, Hcx, bind_ret, Hgu. reflexivity. }
  { exact Hcached. }
  destruct (report_pause Hcb (length recipients) (length recipients)
              (js "completed") None w2)
    as (w3 & Hrep & _ & evs3 & Htr3 & Hp3).
  exists w3. unfold dispatch, bind. rewrite Hloop, Hrep.
  cbn [sent failed errors details app Nat.add err_message Error toString].
  split; [reflexivity|].
  rewrite Htr3, Htr2. unfold w1. cbn [trace].
  rewrite !filter_app, (pause_no_email_send _ Hp2), (pause_no_email_send _ Hp3),
    (pause_no_fetch _ Hp2), (pause_no_fetch _ Hp3).
  cbn. rewrite !app_nil_r. split; reflexivity.
Qed.

Lemma sendBulkEmails_partial_configuration_witness :
  exists w',
    Email.sendBulkEmails Sample.configured [Sample.ana; Sample.ben]
      Sample.campaign None Sample.key_only
    = (Returned
         {| sent := 0; failed := 2;
            errors := [ Email.email Sample.ana ++ js ": "
                        ++ Email.NOT_CONFIGURED_LONG;
                        Email.email Sample.ben ++ js ": "
                        ++ Email.NOT_CONFIGURED_LONG ];
            details := [ Email.failedDetail Sample.ana
                           (Some Email.NOT_CONFIGURED_LONG);
                         Email.failedDetail Sample.ben
                           (Some Email.NOT_CONFIGURED_LONG) ] |}, w')
    /\ filter is_email_send (trace w') = [].
Proof.
  destruct (@sendBulkEmails_partial_configuration Sample.configured
              [Sample.ana; Sample.ben] Sample.campaign None Sample.key_only
              [ (js "publicKey", js "pk_1") ])
    as (_ & w' & Hrun & Hsend & _).
  - intros cb Heq. discriminate Heq.
  - reflexivity.
  - reflexivity.
  - left. reflexivity.
  - exists w'. split; [exact Hrun|exact Hsend].
Defined.

Ltac count_leaf :=
  cbn; rewrite ?filter_app, ?length_app; cbn;
  repeat split; try lia; try assumption; try discriminate;
  try (eexists; reflexivity);
  try (intros ? Hr Hs;
       first [discriminate Hr | injection Hr as <-; discriminate Hs]).

(** A single e-mail send with a cached configuration: the cache and the
    requests are left as they are, and [emailjs.send] is called at most
    once, exactly once for a success. *)
Lemma sendEmail_cached_counts (env : Env) (params : Email.Params) (w : World)
    (config : JsObj) :
  cachedConfig w = Some config ->
  let run := Email.sendEmail env params w in
  cachedConfig (snd run) = Some config
  /\ length (filter is_fetch (trace (snd run)))
     = length (filter is_fetch (trace w))
  /\ length (filter is_email_send (trace w))
     <= length (filter is_email_send (trace (snd run)))
     <= length (filter is_email_send (trace w)) + 1
  /\ (forall result,
        fst run = Returned result -> success result = true ->
        length (filter is_email_send (trace (snd run)))
        = length (filter is_email_send (trace w)) + 1).
Proof.
  intro Hc. cbv zeta. unfold Email.sendEmail.
  rewrite !bind_read_cachedConfig, Hc, !bind_ret.
  destruct (negb (truthy_opt (get config (js "serviceId")))
            || negb (truthy_opt (get config (js "templateId")))
            || negb (truthy_opt (get config (js "publicKey"))));
    [count_leaf|].
  cbv zeta.
  unfold try_catch, bind, perform, console_error, emit, ret. cbv beta.
  destruct (emailjs_send env (trace w) _ _ _ _) as [response|e]; count_leaf.
Qed.

(** The preparation of a bulk run: at most one request, none when a
    configuration is cached, no e-mail, and a cached configuration when it
    succeeds. *)
Lemma prepare_counts (env : Env) (w : World) :
  let run := Email.prepare env w in
  length (filter is_email_send (trace (snd run)))
  = length (filter is_email_send (trace w))
  /\ length (filter is_fetch (trace w))
     <= length (filter is_fetch (trace (snd run)))
     <= length (filter is_fetch (trace w)) + 1
  /\ (cachedConfig w <> None ->
      length (filter is_fetch (trace (snd run)))
      = length (filter is_fetch (trace w)))
  /\ (fst run = Returned true ->
      exists config, cachedConfig (snd run) = Some config).
Proof.
  cbv zeta. unfold Email.prepare, Email.initEmailJS.
  rewrite !bind_read_cachedConfig.
  destruct (cachedConfig w) as [config|] eqn:Hc.
  - rewrite !bind_ret, !bind_read_cachedConfig, Hc.
    unfold bind, emit, perform, ret.
    destruct (truthy_opt (get config (js "publicKey"))); count_leaf.
    intros _. exists config. exact Hc.
  - unfold Email.getEmailJSConfig, bind, try_catch, perform, settle, ret,
      write_cachedConfig, read_cachedConfig, console_error, emit.
    cbv beta.
    destruct (fetch env (trace w) (Email.config_request env)) as [resp|e];
      [destruct (ok resp); [destruct (json resp) as [config|e]|]|];
      cbn; rewrite ?Hc; cbn;
      try match goal with
          | |- context [if ?b then _ else _] => destruct b
          end;
      count_leaf;
      try (intros _; eexists; reflexivity); congruence.
Qed.

(** A bulk e-mail run fetches the configuration at most once, and not at
    all when one is cached; it calls [emailjs.send] at most once for each
    recipient and at least once for each message it counts as sent. *)
Theorem sendBulkEmails_calls (env : Env)
    (recipients : list Email.Recipient) (campaign : Campaign)
    (onProgress : option Callback) (w : World)
    (Hcb : callback_returns onProgress) :
  exists results w',
    Email.sendBulkEmails env recipients campaign onProgress w
      = (Returned results, w')
    /\ length (filter is_fetch (trace w'))
       <= length (filter is_fetch (trace w)) + 1
    /\ (cachedConfig w <> None ->
        length (filter is_fetch (trace w'))
        = length (filter is_fetch (trace w)))
    /\ length (filter is_email_send (trace w)) + sent results
       <= length (filter is_email_send (trace w'))
    /\ length (filter is_email_send (trace w'))
       <= length (filter is_email_send (trace w)) + length recipients.
Proof.
  destruct (sendBulkEmailsWith_ledger env (Email.sendEmail env)
              recipients campaign w Hcb)
    as (results & w' & Hrun & Hcount & Hcases).
  fold (Email.sendBulkEmails env) in Hrun.
  exists results, w'. split; [exact Hrun|].
  destruct (prepare_counts env w) as (Hs1 & Hf1 & Hf1' & Hcache).
  cbv zeta in Hs1, Hf1, Hf1', Hcache.
  set (w1 := snd (Email.prepare env w)) in *.
  destruct Hcases as [(Hcfg & _)|(Hcfg & Hsent & _)].
  - unfold Email.sendBulkEmails in Hrun.
    rewrite sendBulkEmailsWith_complete in Hrun by assumption.
    fold w1 in Hrun.
    set (f1 := length (filter is_fetch (trace w1))) in *.
    set (s1 := length (filter is_email_send (trace w1))) in *.
    destruct (@dispatch_invariant _ _ Email.email Email.name
                (fun r => Email.sendEmail env (Email.message_for campaign r))
                Email.sentDetail Email.failedDetail 200 onProgress
                (length recipients) Hcb
                (fun (results : Results Email.Detail) (w : World) =>
                   (exists config, cachedConfig w = Some config)
                   /\ length (filter is_fetch (trace w)) = f1
                   /\ s1 + sent results
                      <= length (filter is_email_send (trace w))
                   /\ length (filter is_email_send (trace w))
                      <= s1 + sent results + failed results))
      with (recipients := recipients)
           (results := {| sent := 0; failed := 0; errors := [];
                          details := ([] : list Email.Detail) |})
           (w := w1)
      as (results2 & w2 & Hrun2 & _ & Hfetch & Hlow & Hhigh).
    + intros res wa wb ((c & Hc) & Hf & Hl & Hh) Hcc (evs & Hevs & Hp).
      rewrite Hevs, !filter_app, (pause_no_fetch _ Hp),
        (pause_no_email_send _ Hp), !app_nil_r.
      repeat split; try assumption. exists c. congruence.
    + intros r res wa ((c & Hc) & Hf & Hl & Hh).
      destruct (sendEmail_cached_counts env
                  (Email.message_for campaign r) wa Hc)
        as (Hc' & Hf' & Hbound & Hsuccess).
      cbv zeta in Hc', Hf', Hbound, Hsuccess.
      split; [exists c; exact Hc'|]. split; [congruence|].
      destruct (fst (Email.sendEmail env (Email.message_for campaign r) wa))
        as [result|e] eqn:Hout; cbn [outcome_recorded].
      * destruct (success result) eqn:Hs;
          cbn [success_recorded failure_recorded sent failed].
        -- pose proof (Hsuccess result eq_refl Hs). lia.
        -- lia.
      * cbn [failure_recorded sent failed]. lia.
    + split; [apply Hcache; exact Hcfg|]. cbn [sent failed]. unfold s1. lia.
    + rewrite Hrun in Hrun2. injection Hrun2 as <- <-.
      unfold f1, s1 in *. repeat split; try lia.
      intro Hne. specialize (Hf1' Hne). lia.
  - unfold Email.sendBulkEmails in Hrun.
    rewrite sendBulkEmailsWith_incomplete in Hrun by assumption.
    injection Hrun as <- <-. fold w1. cbn [sent].
    repeat split; try lia. intro Hne. specialize (Hf1' Hne). lia.
Qed.

Lemma sendBulkEmails_calls_witness :
  exists results w',
    Email.sendBulkEmails Sample.backend [Sample.ana; Sample.ben]
      Sample.campaign (Some Sample.silent) Sample.fresh
    = (Returned results, w')
    /\ length (filter is_fetch (trace w')) <= 1
    /\ length (filter is_email_send (trace w')) <= 2.
Proof.
  destruct (@sendBulkEmails_calls Sample.backend [Sample.ana; Sample.ben]
              Sample.campaign (Some Sample.silent) Sample.fresh)
    as (results & w' & Hrun & Hfetch & _ & _ & Hsend).
  - intros cb Heq h current total phase name.
    injection Heq as <-. reflexivity.
  - exists results, w'. split; [exact Hrun|].
    split; [exact Hfetch|exact Hsend].
Defined.

(** With a cached configuration, [isEmailJSConfigured] tells whether
    [sendEmail] will return rather than throw.  Before any configuration is
    cached it answers [false], whatever the backend holds. *)
Theorem isEmailJSConfigured_decides_sendEmail (env : Env)
    (params : Email.Params) (w : World) :
  (forall config,
     cachedConfig w = Some config ->
     (fst (Email.isEmailJSConfigured w) = Returned true <->
      exists result, fst (Email.sendEmail env params w) = Returned result))
  /\ (cachedConfig w = None ->
      fst (Email.isEmailJSConfigured w) = Returned false).
Proof.
  split.
  - intros config Hc.
    unfold Email.isEmailJSConfigured, Email.sendEmail.
    rewrite !bind_read_cachedConfig, Hc, bind_ret.
    destruct (truthy_opt (get config (js "serviceId")));
      destruct (truthy_opt (get config (js "templateId")));
      destruct (truthy_opt (get config (js "publicKey")));
      cbn [negb orb andb]; unfold ret, throw; cbn [fst];
      try (split; [discriminate|intros (result & Habs); discriminate Habs]).
    split; [intros _|reflexivity].
    cbv zeta. unfold try_catch, bind, perform, console_error, emit, ret.
    cbv beta.
    destruct (emailjs_send env (trace w) _ _ _ _); cbn; eexists; reflexivity.
  - intro Hc. unfold Email.isEmailJSConfigured.
    rewrite bind_read_cachedConfig, Hc. reflexivity.
Qed.

Lemma isEmailJSConfigured_decides_sendEmail_witness :
  (exists result,
     fst (Email.sendEmail Sample.configured
            (Email.message_for Sample.campaign Sample.ana) Sample.email_ready)
     = Returned result)
  /\ fst (Email.isEmailJSConfigured Sample.fresh) = Returned false.
Proof.
  destruct (isEmailJSConfigured_decides_sendEmail Sample.configured
              (Email.message_for Sample.campaign Sample.ana)
              Sample.email_ready) as [Hiff _].
  destruct (isEmailJSConfigured_decides_sendEmail Sample.configured
              (Email.message_for Sample.campaign Sample.ana)
              Sample.fresh) as [_ Hnone].
  split.
  - apply (Hiff Sample.email_config eq_refl). reflexivity.
  - apply Hnone. reflexivity.
Defined.
